(** * The logging facade of the router ([router/pkg/logging])

    A shallow embedding of [observer.go]: the level parser
    [ZapLogLevelFromString], the encoders [ZapJsonEncoder] and
    [zapConsoleEncoder], the sink builders [newZapOutputLogger] and
    [newZapFileLogger], [attachBaseFields], the factory [New] and the field
    helper [WithRequestID]; [NewObserver], the in-memory sink for tests, is
    in Part III.

    The package configures [go.uber.org/zap]; the parts of zap, of [time],
    [strings], [unicode], [unicode/utf8], [log] and [os] that the package
    calls are modelled in the modules [zapcore], [zap], [time], [strings],
    [unicode], [utf8] and in the effect monad [M] below, each next to the Go
    declaration it stands for. *)

From Stdlib Require Import ZArith List String Ascii Bool Lia DecimalString Zbitwise.
From Stdlib Require Import Floats Uint63.
Import ListNotations.

Local Open Scope string_scope.
Local Open Scope Z_scope.
Local Set Warnings "-register-all".

(* ================================================================= *)
(** * Part I: the model *)
(* ================================================================= *)

(** ** Go values *)

(** A Go [error] is modelled by its message ([err.Error()]); [nil] is [None]. *)
Definition error := string.

(** [int64(x)] for an integer [x]: two's complement wrap-around. *)
Definition int64 (x : Z) : Z := (x + 2 ^ 63) mod 2 ^ 64 - 2 ^ 63.

(** ** [strings] *)

Module strings.

(** [utf8.RuneSelf = 0x80]: bytes below it are single-byte runes. *)
Definition RuneSelf : nat := 128.

Definition isLower (c : ascii) : bool :=
  (Nat.leb 97 (nat_of_ascii c) && Nat.leb (nat_of_ascii c) 122)%bool.

(** [c -= 'a' - 'A'] on a byte that is known to be in ['a'..'z']. *)
Definition toUpperByte (c : ascii) : ascii :=
  if isLower c then ascii_of_nat (nat_of_ascii c - 32) else c.

(** The first loop of [strings.ToUpper]: [isASCII] is cleared by the first
    byte [>= utf8.RuneSelf]. *)
Fixpoint isASCII (s : string) : bool :=
  match s with
  | EmptyString => true
  | String c s' => Nat.ltb (nat_of_ascii c) RuneSelf && isASCII s'
  end.

Fixpoint hasLower (s : string) : bool :=
  match s with
  | EmptyString => false
  | String c s' => isLower c || hasLower s'
  end.

(** The second loop of the ASCII path: every lower-case byte is replaced,
    the runs between them are copied. *)
Fixpoint upperASCII (s : string) : string :=
  match s with
  | EmptyString => EmptyString
  | String c s' => String (toUpperByte c) (upperASCII s')
  end.

Section ToUpper.

(** [strings.Map(unicode.ToUpper, s)], the path [strings.ToUpper] takes
    for a string with a byte [>= utf8.RuneSelf].  It decodes UTF-8 and
    looks every rune up in the case tables of Go's [unicode] package;
    the tables are not part of this repository.  Here the path is a
    parameter; [strings_Map] with [unicode.ToUpper] below spells it out. *)
Variable Map_unicode_ToUpper : string -> string.

Definition ToUpper (s : string) : string :=
  if isASCII s then
    if hasLower s then upperASCII s else s
  else Map_unicode_ToUpper s.

End ToUpper.

End strings.

(** ** [unicode/utf8] *)

Module utf8.

Definition RuneError : Z := 65533.
Definition MaxRune : Z := 1114111.
Definition RuneSelf : Z := 128.

(** A byte as a number, and back. *)
Definition byte (c : ascii) : Z := Z.of_nat (nat_of_ascii c).
Definition chr (b : Z) : ascii := ascii_of_nat (Z.to_nat b).

(** The table [first] with [acceptRanges]: what the first byte of a sequence
    says about it. *)
Inductive lead :=
| as_                                  (* ASCII, a sequence of one byte *)
| xx                                   (* not a first byte *)
| sq (size : nat) (lo hi : Z).         (* size, and the range of the second byte *)

Definition first (s0 : Z) : lead :=
  if s0 <? 128 then as_
  else if s0 <? 194 then xx                        (* 0x80-0xC1 *)
  else if s0 <? 224 then sq 2 128 191              (* 0xC2-0xDF *)
  else if s0 =? 224 then sq 3 160 191              (* 0xE0 *)
  else if s0 <? 237 then sq 3 128 191              (* 0xE1-0xEC *)
  else if s0 =? 237 then sq 3 128 159              (* 0xED *)
  else if s0 <? 240 then sq 3 128 191              (* 0xEE-0xEF *)
  else if s0 =? 240 then sq 4 144 191              (* 0xF0 *)
  else if s0 <? 244 then sq 4 128 191              (* 0xF1-0xF3 *)
  else if s0 =? 244 then sq 4 128 143              (* 0xF4 *)
  else xx.                                         (* 0xF5-0xFF *)

(** [func DecodeRuneInString(s string) (rune, int)] *)
Definition DecodeRuneInString (s : string) : Z * nat :=
  match s with
  | EmptyString => (RuneError, 0%nat)
  | String c0 t0 =>
      let s0 := byte c0 in
      match first s0 with
      | as_ => (s0, 1%nat)
      | xx => (RuneError, 1%nat)
      | sq sz lo hi =>
          if Nat.ltb (String.length s) sz then (RuneError, 1%nat)
          else
            match t0 with
            | EmptyString => (RuneError, 1%nat)
            | String c1 t1 =>
                let s1 := byte c1 in
                if (s1 <? lo) || (hi <? s1) then (RuneError, 1%nat)
                else if Nat.leb sz 2 then
                  (Z.lor (Z.shiftl (Z.land s0 31) 6) (Z.land s1 63), 2%nat)
                else
                  match t1 with
                  | EmptyString => (RuneError, 1%nat)
                  | String c2 t2 =>
                      let s2 := byte c2 in
                      if (s2 <? 128) || (191 <? s2) then (RuneError, 1%nat)
                      else if Nat.leb sz 3 then
                        (Z.lor (Z.lor (Z.shiftl (Z.land s0 15) 12)
                                  (Z.shiftl (Z.land s1 63) 6))
                           (Z.land s2 63), 3%nat)
                      else
                        match t2 with
                        | EmptyString => (RuneError, 1%nat)
                        | String c3 _ =>
                            let s3 := byte c3 in
                            if (s3 <? 128) || (191 <? s3) then (RuneError, 1%nat)
                            else
                              (Z.lor (Z.lor (Z.lor (Z.shiftl (Z.land s0 7) 18)
                                               (Z.shiftl (Z.land s1 63) 12))
                                        (Z.shiftl (Z.land s2 63) 6))
                                 (Z.land s3 63), 4%nat)
                        end
                  end
            end
      end
  end.

(** [func AppendRune(p []byte, r rune) []byte], for [r >= 0]: the bytes
    appended. *)
Definition AppendRune (r : Z) : string :=
  if r <=? 127 then String (chr r) EmptyString
  else if r <=? 2047 then
    String (chr (Z.lor 192 (Z.shiftr r 6)))
      (String (chr (Z.lor 128 (Z.land r 63))) EmptyString)
  else
    let r3 := if (MaxRune <? r) || ((55296 <=? r) && (r <=? 57343)) then RuneError else r in
    if (MaxRune <? r) || ((55296 <=? r) && (r <=? 57343)) || (r <=? 65535) then
      String (chr (Z.lor 224 (Z.shiftr r3 12)))
        (String (chr (Z.lor 128 (Z.land (Z.shiftr r3 6) 63)))
           (String (chr (Z.lor 128 (Z.land r3 63))) EmptyString))
    else
      String (chr (Z.lor 240 (Z.shiftr r 18)))
        (String (chr (Z.lor 128 (Z.land (Z.shiftr r 12) 63)))
           (String (chr (Z.lor 128 (Z.land (Z.shiftr r 6) 63)))
              (String (chr (Z.lor 128 (Z.land r 63))) EmptyString))).

End utf8.

(** ** [unicode] *)

Module unicode.

Definition MaxASCII : Z := 127.

Section ToUpper.

(** [To(UpperCase, r)] looks [r] up in [CaseRanges].  Two entries of the
    table are spelled out, [{0x0131, 0x0131, d{-232, 0, -232}}] (dotless i)
    and [{0x017F, 0x017F, d{-300, 0, -300}}] (long s); the upper case of
    every other rune above [MaxASCII] is the parameter. *)
Variable CaseRanges_upper : Z -> Z.

Definition To_UpperCase (r : Z) : Z :=
  if r =? 305 then r - 232
  else if r =? 383 then r - 300
  else CaseRanges_upper r.

(** [func ToUpper(r rune) rune] *)
Definition ToUpper (r : Z) : Z :=
  if r <=? MaxASCII then
    if (97 <=? r) && (r <=? 122) then r - 32 else r
  else To_UpperCase r.

End ToUpper.

End unicode.

(** ** [strings.Map] *)

(** [strings.Map(unicode.ToUpper, s)] is the path [strings.ToUpper] takes
    for a string with a byte [>= utf8.RuneSelf]; it is what the parameter
    [Map_unicode_ToUpper] of [strings.ToUpper] stands for. *)

Fixpoint drop (n : nat) (s : string) : string :=
  match n, s with
  | S n', String _ s' => drop n' s'
  | _, _ => s
  end.

Fixpoint take (n : nat) (s : string) : string :=
  match n, s with
  | S n', String c s' => String c (take n' s')
  | _, _ => EmptyString
  end.

(** [for i, c := range s]: the runes of [s], each with the bytes it was
    decoded from; an invalid byte gives [RuneError] and is passed alone. *)
Fixpoint range_fuel (n : nat) (s : string) : list (Z * string) :=
  match n with
  | O => []
  | S n' =>
      match s with
      | EmptyString => []
      | _ =>
          let '(c, w) := utf8.DecodeRuneInString s in
          (c, take w s) :: range_fuel n' (drop w s)
      end
  end.

Definition range (s : string) : list (Z * string) := range_fuel (String.length s) s.

Section Map.

Variable mapping : Z -> Z.

(** The second loop of [strings.Map]: every rune is mapped and written,
    unless the mapping is negative. *)
Fixpoint Map_rest (rs : list (Z * string)) : string :=
  match rs with
  | [] => EmptyString
  | (c, _) :: rs' =>
      let r := mapping c in
      ((if (0 <=? r)%Z then utf8.AppendRune r else EmptyString) ++ Map_rest rs')%string
  end.

(** The first loop: the runes the mapping leaves alone are kept as they are
    in [s]; from the first rune that changes (an invalid byte counts) the
    output is built rune by rune. *)
Fixpoint Map_first (rs : list (Z * string)) : string :=
  match rs with
  | [] => EmptyString
  | (c, bytes) :: rs' =>
      let r := mapping c in
      if (r =? c) && (negb (c =? utf8.RuneError) || negb (Nat.eqb (String.length bytes) 1))
      then (bytes ++ Map_first rs')%string
      else Map_rest rs
  end.

(** [func Map(mapping func(rune) rune, s string) string] *)
Definition strings_Map (s : string) : string := Map_first (range s).

End Map.

(** ** [float64] *)

(** Go's [float64] is IEEE 754 binary64, the kernel's primitive [float]. *)
Module float64.

(** [float64(n)] for an [int64] [n]: the nearest binary64, ties to even.
    [PrimFloat.of_uint63] converts a magnitude below [2^63]. *)
Definition of_int64 (n : Z) : float :=
  if n =? - 2 ^ 63 then PrimFloat.opp (PrimFloat.mul PrimFloat.two (PrimFloat.of_uint63 (Uint63.of_Z (2 ^ 62))))
  else if 0 <=? n then PrimFloat.of_uint63 (Uint63.of_Z n)
  else PrimFloat.opp (PrimFloat.of_uint63 (Uint63.of_Z (- n))).

(** The integer part of a finite [float64], fraction discarded. *)
Definition integer_part (x : float) : Z :=
  match Prim2SF x with
  | S754_finite s m e =>
      let mag := if 0 <=? e then Z.pos m * 2 ^ e else Z.pos m / 2 ^ (- e) in
      if s then - mag else mag
  | _ => 0
  end.

(** [math.Trunc(x)]: the integer value of [x]; zeros, infinities and NaN
    are returned as they are. *)
Definition Trunc (x : float) : float :=
  match Prim2SF x with
  | S754_finite s m e =>
      if 0 <=? e then x
      else if s then PrimFloat.opp (of_int64 (- integer_part x))
      else of_int64 (integer_part x)
  | _ => x
  end.

(** [int64(x)] for a [float64] [x]: the fraction is discarded.  (Go leaves
    the result open when the value does not fit; the quotients formed
    below do.) *)
Definition to_int64 (x : float) : Z := int64 (integer_part x).

End float64.

(** ** [time] *)

Module time.

(** A [time.Time]: seconds and nanoseconds since the Unix epoch, and the
    offset in seconds of the zone the time is displayed in. *)
Record Time := mkTime { unixSec : Z; nsec : Z; zoneOffset : Z }.

(** [type Duration int64], in nanoseconds. *)
Definition Millisecond : Z := 1000000.
Definition Second : Z := 1000 * Millisecond.

(** [func (t Time) UnixNano() int64] *)
Definition UnixNano (t : Time) : Z := int64 (unixSec t * 1000000000 + nsec t).

(** [absClock]: hour, minute and second of the displayed time of day. *)
Definition Clock (t : Time) : Z * Z * Z :=
  let sec := (unixSec t + zoneOffset t) mod 86400 in
  let hour := sec / 3600 in
  let sec := sec - hour * 3600 in
  let min := sec / 60 in
  let sec := sec - min * 60 in
  (hour, min, sec).

(** The chunks [nextStdChunk] cuts a layout into.  Those of the clock are
    modelled; a date, zone or fraction chunk is [stdUnmodelled]. *)
Inductive chunk :=
| stdHour          (* "15" *)
| stdHour12        (* "3"  *)
| stdZeroHour12    (* "03" *)
| stdMinute        (* "4"  *)
| stdZeroMinute    (* "04" *)
| stdSecond        (* "5"  *)
| stdZeroSecond    (* "05" *)
| stdPM            (* "PM" *)
| stdpm            (* "pm" *)
| stdUnmodelled
| literal (c : ascii).

Definition byteIs (c : ascii) (d : string) : bool :=
  match d with
  | String d0 EmptyString => Ascii.eqb c d0
  | _ => false
  end.

(** One-byte chunks.  A byte that can start a date, zone or fraction chunk
    is not interpreted. *)
Definition chunk1 (c : ascii) : chunk :=
  if byteIs c "3" then stdHour12
  else if byteIs c "4" then stdMinute
  else if byteIs c "5" then stdSecond
  else if (byteIs c "J" || byteIs c "M" || byteIs c "0" || byteIs c "1" || byteIs c "2" || byteIs c "_"
           || byteIs c "-" || byteIs c "Z" || byteIs c "." || byteIs c ",")%bool then stdUnmodelled
  else literal c.

Fixpoint chunks (layout : string) : list chunk :=
  match layout with
  | EmptyString => []
  | String c rest =>
      match rest with
      | String d rest' =>
          if (byteIs c "1" && byteIs d "5")%bool then stdHour :: chunks rest'
          else if (byteIs c "0" && byteIs d "3")%bool then stdZeroHour12 :: chunks rest'
          else if (byteIs c "0" && byteIs d "4")%bool then stdZeroMinute :: chunks rest'
          else if (byteIs c "0" && byteIs d "5")%bool then stdZeroSecond :: chunks rest'
          else if (byteIs c "P" && byteIs d "M")%bool then stdPM :: chunks rest'
          else if (byteIs c "p" && byteIs d "m")%bool then stdpm :: chunks rest'
          else chunk1 c :: chunks rest
      | EmptyString => [chunk1 c]
      end
  end.

Definition digit (d : Z) : ascii := ascii_of_nat (48 + Z.to_nat d).

(** [appendInt(b, x, width)] for [0 <= x < 100], as the clock fields are:
    decimal, padded with zeros to [width]. *)
Definition appendInt (x width : Z) : string :=
  if (x <? 10) && (width <? 2) then String (digit x) EmptyString
  else String (digit (x / 10)) (String (digit (x mod 10)) EmptyString).

(** The hour on the 12-hour clock: [hr := hour % 12; if hr == 0 { hr = 12 }]. *)
Definition hour12 (hour : Z) : Z :=
  let hr := hour mod 12 in if hr =? 0 then 12 else hr.

Definition appendChunk (t : Time) (k : chunk) : option string :=
  let '(hour, min, sec) := Clock t in
  match k with
  | stdHour => Some (appendInt hour 2)
  | stdHour12 => Some (appendInt (hour12 hour) 0)
  | stdZeroHour12 => Some (appendInt (hour12 hour) 2)
  | stdMinute => Some (appendInt min 0)
  | stdZeroMinute => Some (appendInt min 2)
  | stdSecond => Some (appendInt sec 0)
  | stdZeroSecond => Some (appendInt sec 2)
  | stdPM => Some (if 12 <=? hour then "PM" else "AM")
  | stdpm => Some (if 12 <=? hour then "pm" else "am")
  | stdUnmodelled => None
  | literal c => Some (String c EmptyString)
  end.

Fixpoint appendChunks (t : Time) (ks : list chunk) : option string :=
  match ks with
  | [] => Some EmptyString
  | k :: ks' =>
      match appendChunk t k, appendChunks t ks' with
      | Some a, Some b => Some (a ++ b)%string
      | _, _ => None
      end
  end.

(** [func (t Time) Format(layout string) string]; [None] for a layout with a
    chunk that is not modelled. *)
Definition Format (t : Time) (layout : string) : option string :=
  appendChunks t (chunks layout).

End time.

(** ** [zapcore] *)

Module zapcore.

(** [type Level int8] with
    [const (DebugLevel Level = iota - 1; InfoLevel; WarnLevel; ErrorLevel;
            DPanicLevel; PanicLevel; FatalLevel)]. *)
Definition Level := Z.

Definition DebugLevel  : Level := -1.
Definition InfoLevel   : Level := 0.
Definition WarnLevel   : Level := 1.
Definition ErrorLevel  : Level := 2.
Definition DPanicLevel : Level := 3.
Definition PanicLevel  : Level := 4.
Definition FatalLevel  : Level := 5.

(** The levels zap declares ([_minLevel = DebugLevel],
    [_maxLevel = FatalLevel]). *)
Definition declared_levels : list Level :=
  [DebugLevel; InfoLevel; WarnLevel; ErrorLevel; DPanicLevel; PanicLevel; FatalLevel].

(** [func (l Level) Enabled(lvl Level) bool { return lvl >= l }] *)
Definition Level_Enabled (l lvl : Level) : bool := l <=? lvl.

(** *** Fields *)

Inductive FieldType := UnknownType | Int64Type | StringType.

(** [type Field struct { Key string; Type FieldType; Integer int64;
    String string; ... }] *)
Record Field := mkField
  { Key : string; FType : FieldType; Integer : Z; Str : string }.

(** *** Encoders *)

(** What an encoder function appends to its [PrimitiveArrayEncoder]. *)
Inductive Primitive :=
| AppendInt64 (v : Z)
| AppendFloat64 (v : float)
| AppendString (v : string).

Inductive LevelEncoder := LowercaseLevelEncoder | CapitalColorLevelEncoder.
Inductive DurationEncoder := NanosDurationEncoder | SecondsDurationEncoder.
Inductive CallerEncoder := ShortCallerEncoder.

(** [type TimeEncoder func(time.Time, PrimitiveArrayEncoder)]; [None] when
    the encoder formats with a layout outside the modelled chunks. *)
Definition TimeEncoder := time.Time -> option Primitive.

(** The fields of [zapcore.EncoderConfig] that the package or its encoders
    read or set. *)
Record EncoderConfig := mkEncoderConfig
  { MessageKey : string;
    LevelKey : string;
    TimeKey : string;
    NameKey : string;
    CallerKey : string;
    StacktraceKey : string;
    EncodeLevel : LevelEncoder;
    EncodeTime : TimeEncoder;
    EncodeDuration : DurationEncoder;
    EncodeCaller : CallerEncoder;
    ConsoleSeparator : string }.

Definition set_TimeKey (ec : EncoderConfig) (k : string) : EncoderConfig :=
  mkEncoderConfig (MessageKey ec) (LevelKey ec) k (NameKey ec) (CallerKey ec)
    (StacktraceKey ec) (EncodeLevel ec) (EncodeTime ec) (EncodeDuration ec)
    (EncodeCaller ec) (ConsoleSeparator ec).

Definition set_EncodeLevel (ec : EncoderConfig) (e : LevelEncoder) : EncoderConfig :=
  mkEncoderConfig (MessageKey ec) (LevelKey ec) (TimeKey ec) (NameKey ec) (CallerKey ec)
    (StacktraceKey ec) e (EncodeTime ec) (EncodeDuration ec)
    (EncodeCaller ec) (ConsoleSeparator ec).

Definition set_EncodeTime (ec : EncoderConfig) (e : TimeEncoder) : EncoderConfig :=
  mkEncoderConfig (MessageKey ec) (LevelKey ec) (TimeKey ec) (NameKey ec) (CallerKey ec)
    (StacktraceKey ec) (EncodeLevel ec) e (EncodeDuration ec)
    (EncodeCaller ec) (ConsoleSeparator ec).

Definition set_EncodeDuration (ec : EncoderConfig) (e : DurationEncoder) : EncoderConfig :=
  mkEncoderConfig (MessageKey ec) (LevelKey ec) (TimeKey ec) (NameKey ec) (CallerKey ec)
    (StacktraceKey ec) (EncodeLevel ec) (EncodeTime ec) e
    (EncodeCaller ec) (ConsoleSeparator ec).

Definition set_ConsoleSeparator (ec : EncoderConfig) (sep : string) : EncoderConfig :=
  mkEncoderConfig (MessageKey ec) (LevelKey ec) (TimeKey ec) (NameKey ec) (CallerKey ec)
    (StacktraceKey ec) (EncodeLevel ec) (EncodeTime ec) (EncodeDuration ec)
    (EncodeCaller ec) sep.

(** [EpochTimeEncoder]: seconds since the epoch as a [float64]. *)
Definition EpochTimeEncoder : TimeEncoder := fun t =>
  let nanos := time.UnixNano t in
  let sec := PrimFloat.div (float64.of_int64 nanos) (float64.of_int64 time.Second) in
  Some (AppendFloat64 sec).

(** [TimeEncoderOfLayout(layout)]: [enc.AppendString(t.Format(layout))]. *)
Definition TimeEncoderOfLayout (layout : string) : TimeEncoder := fun t =>
  option_map AppendString (time.Format t layout).

Inductive Encoder :=
| jsonEncoder (cfg : EncoderConfig)
| consoleEncoder (cfg : EncoderConfig).

Definition NewJSONEncoder (cfg : EncoderConfig) : Encoder := jsonEncoder cfg.

(** [NewConsoleEncoder] defaults an empty separator to a tab. *)
Definition NewConsoleEncoder (cfg : EncoderConfig) : Encoder :=
  if (ConsoleSeparator cfg =? "")%string
  then consoleEncoder (set_ConsoleSeparator cfg (String (ascii_of_nat 9) EmptyString))
  else consoleEncoder cfg.

Definition Encoder_config (enc : Encoder) : EncoderConfig :=
  match enc with jsonEncoder cfg | consoleEncoder cfg => cfg end.

Definition isJSON (enc : Encoder) : bool :=
  match enc with jsonEncoder _ => true | consoleEncoder _ => false end.

(** *** Entries *)

(** A frame of the call stack, as [runtime.Frame] gives it. *)
Record Frame := mkFrame { Function : string; File : string; Line : Z }.

(** [type Entry struct { Level; Time; LoggerName; Message; Caller; Stack }];
    [Caller] is [None] for an [EntryCaller] that is not [Defined]. *)
Record Entry := mkEntry
  { Level_ : Level;
    Time_ : time.Time;
    Message : string;
    Caller : option Frame;
    Stack : string }.

(** *** Cores *)

(** Where a core writes; [nilWriteSyncer] is the nil interface value. *)
Inductive WriteSyncer :=
| nilWriteSyncer
| Stdout
| Sink (name : string).

(** [ioCore] carries the fields added by [With] (zap keeps them encoded in
    a clone of the encoder); [multiCore] is what [NewTee] builds. *)
Inductive Core :=
| nopCore
| ioCore (enc : Encoder) (out : WriteSyncer) (level : Level) (context : list Field)
| multiCore (cores : list Core).

Definition NewCore (enc : Encoder) (ws : WriteSyncer) (enab : Level) : Core :=
  ioCore enc ws enab [].

(** [func (c *ioCore) With(fields []Field) Core] and
    [func (mc multiCore) With(fields []Field) Core]. *)
Fixpoint Core_With (c : Core) (fields : list Field) : Core :=
  match c with
  | nopCore => nopCore
  | ioCore enc out level context => ioCore enc out level (context ++ fields)
  | multiCore cores => multiCore (map (fun c' => Core_With c' fields) cores)
  end.

(** [func NewTee(cores ...Core) Core] *)
Definition NewTee (cores : list Core) : Core :=
  match cores with
  | [] => nopCore
  | [c] => c
  | _ => multiCore cores
  end.

(** The sinks of a core: its [ioCore] leaves, in order. *)
Fixpoint sinks (c : Core) : list Core :=
  match c with
  | nopCore => []
  | ioCore _ _ _ _ => [c]
  | multiCore cores => flat_map sinks cores
  end.

(** [Check]: the cores an entry is added to, those whose level enables the
    entry's. *)
Fixpoint Core_Check (c : Core) (ent : Entry) : list Core :=
  match c with
  | nopCore => []
  | ioCore _ _ level _ => if Level_Enabled level (Level_ ent) then [c] else []
  | multiCore cores => flat_map (fun c' => Core_Check c' ent) cores
  end.

(** A record as a sink writes it: the destination, the encoder, the entry,
    and the fields (those attached to the core, then those of the call). *)
Record Written := mkWritten
  { to : WriteSyncer; by_ : Encoder; entry : Entry; fields : list Field }.

(** [func (c *ioCore) Write(ent Entry, fields []Field) error] *)
Definition Core_Write (c : Core) (ent : Entry) (fs : list Field) : list Written :=
  match c with
  | ioCore enc out _ context => [mkWritten out enc ent (context ++ fs)]
  | _ => []
  end.

(** The time member of a JSON record: [AddTime(TimeKey, ent.Time)] when
    [TimeKey] is not empty. *)
Definition time_member (w : Written) : option (string * option Primitive) :=
  let cfg := Encoder_config (by_ w) in
  if (TimeKey cfg =? "")%string then None
  else Some (TimeKey cfg, EncodeTime cfg (Time_ (entry w))).

(** The stack trace of a record: both encoders render it when
    [ent.Stack != "" && StacktraceKey != ""], the JSON encoder as the
    member [StacktraceKey]. *)
Definition stacktrace_member (w : Written) : option (string * string) :=
  let cfg := Encoder_config (by_ w) in
  if (Stack (entry w) =? "")%string || (StacktraceKey cfg =? "")%string then None
  else Some (StacktraceKey cfg, Stack (entry w)).

Definition has_field (key : string) (w : Written) : bool :=
  existsb (fun f => (Key f =? key)%string) (fields w).

End zapcore.

(** ** [zap] *)

Module zap.

Import zapcore.

(** The fields of [zap.Logger] that the options below set. *)
Record Logger := mkLogger
  { core : Core; addCaller : bool; addStack : Level }.

Inductive Option :=
| AddCaller
| AddStacktrace (lvl : Level).

Definition apply (o : Option) (log : Logger) : Logger :=
  match o with
  | AddCaller => mkLogger (core log) true (addStack log)
  | AddStacktrace lvl => mkLogger (core log) (addCaller log) lvl
  end.

Definition WithOptions (log : Logger) (opts : list Option) : Logger :=
  fold_left (fun l o => apply o l) opts log.

(** [func New(core zapcore.Core, options ...Option) *Logger]: no caller,
    [addStack: zapcore.FatalLevel + 1], then the options in order. *)
Definition New (c : Core) (options : list Option) : Logger :=
  WithOptions (mkLogger c false (FatalLevel + 1)) options.

(** [func String(key string, val string) Field] *)
Definition String_ (key val : string) : Field := mkField key StringType 0 val.

(** What the runtime supplies to one logging call: the clock's reading and
    the frames of the calling goroutine's stack, innermost first. *)
Record Call := mkCall { now : time.Time; frames : list Frame }.

Definition itoa (x : Z) : string := NilZero.string_of_int (Z.to_int x).

(** [stacktrace.Formatter.FormatFrame] *)
Definition FormatFrame (f : Frame) : string :=
  (Function f ++ String (ascii_of_nat 10) (String (ascii_of_nat 9) EmptyString)
     ++ File f ++ ":" ++ itoa (Line f))%string.

(** What a [stacktrace.Formatter] has written after formatting [fs]: it
    writes a newline before every frame but its first. *)
Fixpoint FormatFrames (fs : list Frame) : string :=
  match fs with
  | [] => EmptyString
  | [f] => FormatFrame f
  | f :: fs' => (FormatFrame f ++ String (ascii_of_nat 10) (FormatFrames fs'))%string
  end.

(** [stacktrace.Formatter.FormatStack]: the frames it formats, all the
    remaining ones but the last, which is [runtime.main] or
    [runtime.goexit]. *)
Definition FormatStack (rest : list Frame) : list Frame := removelast rest.

(** The trace [check] attaches: [FormatFrame] of the first frame, then
    [FormatStack] of the others if there are more. *)
Definition Stacktrace (fs : list Frame) : string :=
  match fs with
  | [] => EmptyString
  | frame :: more => FormatFrames (frame :: FormatStack more)
  end.

Fixpoint Core_Enabled (c : Core) (lvl : Level) : bool :=
  match c with
  | nopCore => false
  | ioCore _ _ level _ => Level_Enabled level lvl
  | multiCore cores => existsb (fun c' => Core_Enabled c' lvl) cores
  end.

(** [func (log *Logger) check(lvl zapcore.Level, msg string) *CheckedEntry]:
    the entry and the cores that will write it; [None] when nothing is
    written. *)
Definition check (log : Logger) (call : Call) (lvl : Level) (msg : string)
  : option (Entry * list Core) :=
  if (lvl <? DPanicLevel) && negb (Core_Enabled (core log) lvl) then None
  else
    let ent := mkEntry lvl (now call) msg None EmptyString in
    match Core_Check (core log) ent with
    | [] => None
    | cores =>
        let stack := Level_Enabled (addStack log) lvl in
        if negb (addCaller log) && negb stack then Some (ent, cores)
        else
          match frames call with
          | [] => Some (ent, cores)
          | frame :: more =>
              let caller := if addCaller log then Some frame else None in
              let trace :=
                if stack then FormatFrames (frame :: FormatStack more) else EmptyString in
              Some (mkEntry lvl (now call) msg caller trace, cores)
          end
    end.

(** A logging call ([Debug], [Info], ..., [Log]): [check], then every core of
    the checked entry writes it with the call's fields. *)
Definition log (l : Logger) (call : Call) (lvl : Level) (msg : string)
    (fs : list Field) : list Written :=
  match check l call lvl msg with
  | None => []
  | Some (ent, cores) => flat_map (fun c => Core_Write c ent fs) cores
  end.

End zap.

(** ** Effects of construction *)

(** What [zap.Open] hands back: [(zapcore.WriteSyncer, func(), error)].  The
    cleanup function is modelled by the names of the sinks it closes. *)
Record OpenResult := mkOpenResult
  { opened : zapcore.WriteSyncer;
    closer : option (list string);
    err : option error }.

(** The operating system, as construction sees it. *)
Record Env := mkEnv
  { os_Hostname : string * option error;
    os_Getpid : Z;
    zap_Open : string -> OpenResult }.

Inductive Event :=
| closed (names : list string)        (* the cleanup function was called *)
| logged (msg : string).              (* the standard logger printed [msg] *)

(** A computation returns, or ends the process with [os.Exit(code)]. *)
Inductive Outcome (A : Type) :=
| Returned (a : A)
| Exited (code : Z).
Arguments Returned {A} a.
Arguments Exited {A} code.

Definition M (A : Type) : Type := Env -> list Event -> Outcome A * list Event.

Definition ret {A} (a : A) : M A := fun _ tr => (Returned a, tr).

Definition bind {A B} (m : M A) (k : A -> M B) : M B := fun env tr =>
  match m env tr with
  | (Returned a, tr') => k a env tr'
  | (Exited code, tr') => (Exited code, tr')
  end.

Notation "x <- m ;; k" := (bind m (fun x => k))
  (at level 61, m at next level, right associativity).
Notation "m ;;; k" := (bind m (fun _ => k))
  (at level 61, right associativity).

Definition ask {A} (f : Env -> A) : M A := fun env tr => (Returned (f env), tr).
Definition emit (e : Event) : M unit := fun _ tr => (Returned tt, (tr ++ [e])%list).
Definition os_Exit {A} (code : Z) : M A := fun _ tr => (Exited code, tr).

(** [log.Fatalf]: [Printf] followed by [os.Exit(1)]. *)
Definition log_Fatalf {A} (msg : string) : M A := emit (logged msg) ;;; os_Exit 1.

Definition when (b : bool) (m : M unit) : M unit := if b then m else ret tt.

Definition run {A} (m : M A) (env : Env) : Outcome A * list Event := m env [].

(** ** The package *)

Import zapcore.

Definition requestIDField : string := "reqId".

(** [zap.NewProductionEncoderConfig()] *)
Definition NewProductionEncoderConfig : EncoderConfig :=
  {| MessageKey := "msg";
     LevelKey := "level";
     TimeKey := "ts";
     NameKey := "logger";
     CallerKey := "caller";
     StacktraceKey := "stacktrace";
     EncodeLevel := LowercaseLevelEncoder;
     EncodeTime := EpochTimeEncoder;
     EncodeDuration := SecondsDurationEncoder;
     EncodeCaller := ShortCallerEncoder;
     ConsoleSeparator := "" |}.

Definition zapBaseEncoderConfig : EncoderConfig :=
  let ec := NewProductionEncoderConfig in
  let ec := set_EncodeDuration ec SecondsDurationEncoder in
  let ec := set_TimeKey ec "time" in
  ec.

(** The [EncodeTime] closure of [ZapJsonEncoder]. *)
Definition millisTimeEncoder : TimeEncoder := fun t =>
  let nanos := time.UnixNano t in
  let millis :=
    float64.to_int64
      (float64.Trunc
         (PrimFloat.div (float64.of_int64 nanos) (float64.of_int64 time.Millisecond))) in
  Some (AppendInt64 millis).

Definition ZapJsonEncoder : Encoder :=
  let ec := zapBaseEncoderConfig in
  let ec := set_EncodeTime ec millisTimeEncoder in
  NewJSONEncoder ec.

Definition zapConsoleEncoder : Encoder :=
  let ec := zapBaseEncoderConfig in
  let ec := set_ConsoleSeparator ec " " in
  let ec := set_EncodeTime ec (TimeEncoderOfLayout "15:04:05 PM") in
  let ec := set_EncodeLevel ec CapitalColorLevelEncoder in
  NewConsoleEncoder ec.

Definition attachBaseFields (core : Core) : M Core :=
  h <- ask os_Hostname ;;
  let host := match snd h with Some _ => "unknown" | None => fst h end in
  pid <- ask os_Getpid ;;
  let core := Core_With core
    [ mkField "hostname" StringType 0 host;
      mkField "pid" Int64Type (int64 pid) "" ] in
  ret core.

Definition newZapFileLogger (file : string) (level : Level) : M Core :=
  r <- ask (fun env => zap_Open env file) ;;
  let fileOpen := opened r in
  when (match err r, closer r with Some _, Some _ => true | _, _ => false end)
       (emit (closed (match closer r with Some names => names | None => [] end))) ;;;
  when (match err r with Some _ => true | None => false end)
       (log_Fatalf ("could not open log file: "
                    ++ match err r with Some e => e | None => "" end
                    ++ String (ascii_of_nat 10) EmptyString)) ;;;
  let core := NewCore ZapJsonEncoder fileOpen level in
  attachBaseFields core.

Definition newZapOutputLogger (prettyLogging : bool) (level : Level) : M Core :=
  let encoder := if prettyLogging then zapConsoleEncoder else ZapJsonEncoder in
  let syncer := Stdout in
  let baseCore := NewCore encoder syncer level in
  if negb prettyLogging then attachBaseFields baseCore else ret baseCore.

Definition newZapLogger (debug : bool) (cores : list Core) : zap.Logger :=
  let zapOpts := [] in
  let zapOpts := if debug then (zapOpts ++ [zap.AddCaller])%list else zapOpts in
  let zapOpts := (zapOpts ++ [zap.AddStacktrace ErrorLevel])%list in
  let zapTee := NewTee cores in
  zap.New zapTee zapOpts.

Definition New (prettyLogging debug : bool) (levelOutput : Level)
    (fileOutput : string) (fileLevel : Level) : M zap.Logger :=
  c <- newZapOutputLogger prettyLogging levelOutput ;;
  cores <- (if negb (fileOutput =? "")%string
            then f <- newZapFileLogger fileOutput fileLevel ;; ret ([c] ++ [f])%list
            else ret [c]) ;;
  ret (newZapLogger debug cores).

Definition WithRequestID (reqID : string) : Field := zap.String_ requestIDField reqID.

(** ** [ZapLogLevelFromString] *)

Section LevelParser.

Variable Map_unicode_ToUpper : string -> string.

(** [fmt.Errorf("unknown log level: %s", logLevel)] *)
Definition unknown_log_level (logLevel : string) : error :=
  "unknown log level: " ++ logLevel.

Definition ZapLogLevelFromString (logLevel : string) : Level * option error :=
  let u := strings.ToUpper Map_unicode_ToUpper logLevel in
  if (u =? "DEBUG")%string then (DebugLevel, None)
  else if (u =? "INFO")%string then (InfoLevel, None)
  else if (u =? "WARNING")%string then (WarnLevel, None)
  else if (u =? "ERROR")%string then (ErrorLevel, None)
  else if (u =? "FATAL")%string then (FatalLevel, None)
  else if (u =? "PANIC")%string then (PanicLevel, None)
  else (-1, Some (unknown_log_level logLevel)).

End LevelParser.

(* ================================================================= *)
(** * Part II: properties *)
(* ================================================================= *)

(** ** Level names *)

(** The six names and the zap level each one stands for. *)
Definition level_names : list (string * Level) :=
  [ ("DEBUG", DebugLevel); ("INFO", InfoLevel); ("WARNING", WarnLevel);
    ("ERROR", ErrorLevel); ("FATAL", FatalLevel); ("PANIC", PanicLevel) ].

Definition isUpper (c : ascii) : bool :=
  (Nat.leb 65 (nat_of_ascii c) && Nat.leb (nat_of_ascii c) 90)%bool.

(** [c] is the letter [u] in either case. *)
Definition letter_variant (c u : ascii) : Prop :=
  c = u \/ (isUpper u = true /\ nat_of_ascii c = (nat_of_ascii u + 32)%nat).

(** [s] spells [name] letter by letter, each letter in either case. *)
Inductive ascii_case_variant : string -> string -> Prop :=
| acv_nil : ascii_case_variant EmptyString EmptyString
| acv_cons c u s name :
    letter_variant c u -> ascii_case_variant s name ->
    ascii_case_variant (String c s) (String u name).

(** [hay] contains [needle] as a substring. *)
Definition contains (hay needle : string) : Prop :=
  exists pre post, hay = (pre ++ needle ++ post)%string.

Section LevelParserFacts.

Variable up : string -> string.

(** A case variant of [name]: an ASCII string spelling it in any mix of
    cases, or a string with non-ASCII bytes that Unicode upper-casing
    takes to [name]. *)
Definition case_variant (s name : string) : Prop :=
  ascii_case_variant s name \/ (strings.isASCII s = false /\ up s = name).

Lemma toUpperByte_lower c :
  strings.isLower c = true ->
  isUpper (strings.toUpperByte c) = true
  /\ nat_of_ascii c = (nat_of_ascii (strings.toUpperByte c) + 32)%nat.
Proof.
  intros Hl. unfold strings.toUpperByte. rewrite Hl.
  unfold strings.isLower in Hl. apply andb_true_iff in Hl as [H1 H2].
  apply Nat.leb_le in H1, H2.
  assert (Hn : nat_of_ascii (ascii_of_nat (nat_of_ascii c - 32)) = (nat_of_ascii c - 32)%nat)
    by (apply nat_ascii_embedding; lia).
  unfold isUpper. rewrite Hn. split.
  - apply andb_true_iff; split; apply Nat.leb_le; lia.
  - lia.
Qed.

Lemma toUpperByte_variant c u :
  letter_variant c u -> isUpper u = true -> strings.toUpperByte c = u.
Proof.
  intros [-> | [_ Hc]] Hu; unfold strings.toUpperByte, strings.isLower;
    unfold isUpper in Hu; apply andb_true_iff in Hu as [H1 H2];
    apply Nat.leb_le in H1, H2.
  - replace (Nat.leb 97 (nat_of_ascii u)) with false; [reflexivity|].
    symmetry; apply Nat.leb_gt; lia.
  - replace (Nat.leb 97 (nat_of_ascii c)) with true by (symmetry; apply Nat.leb_le; lia).
    replace (Nat.leb (nat_of_ascii c) 122) with true by (symmetry; apply Nat.leb_le; lia).
    cbn [andb]. rewrite Hc.
    replace (nat_of_ascii u + 32 - 32)%nat with (nat_of_ascii u) by lia.
    apply ascii_nat_embedding.
Qed.

Lemma letter_variant_ascii c u :
  letter_variant c u -> isUpper u = true ->
  Nat.ltb (nat_of_ascii c) strings.RuneSelf = true.
Proof.
  intros Hv Hu. unfold isUpper in Hu. apply andb_true_iff in Hu as [H1 H2].
  apply Nat.leb_le in H1, H2. apply Nat.ltb_lt. unfold strings.RuneSelf.
  destruct Hv as [-> | [_ Hc]]; lia.
Qed.

Definition upper_name (name : string) : Prop :=
  forall c, In c (list_ascii_of_string name) -> isUpper c = true.

Lemma ascii_case_variant_upper s name :
  upper_name name -> ascii_case_variant s name ->
  strings.isASCII s = true /\ strings.upperASCII s = name.
Proof.
  intros Hn Hv. induction Hv as [|c u s name Hl Hv IH]; [split; reflexivity|].
  assert (Hu : isUpper u = true) by (apply Hn; left; reflexivity).
  destruct IH as [IH1 IH2]; [intros d Hd; apply Hn; right; exact Hd|].
  cbn [strings.isASCII strings.upperASCII].
  rewrite (letter_variant_ascii _ _ Hl Hu), IH1, (toUpperByte_variant _ _ Hl Hu), IH2.
  split; reflexivity.
Qed.

Lemma upperASCII_case_variant s :
  ascii_case_variant s (strings.upperASCII s).
Proof.
  induction s as [|c s IH]; [constructor|].
  cbn [strings.upperASCII]. constructor; [|exact IH].
  destruct (strings.isLower c) eqn:Hl.
  - right. apply toUpperByte_lower, Hl.
  - left. unfold strings.toUpperByte. rewrite Hl. reflexivity.
Qed.

Lemma upperASCII_no_lower s :
  strings.hasLower s = false -> strings.upperASCII s = s.
Proof.
  induction s as [|c s IH]; [reflexivity|].
  cbn [strings.hasLower strings.upperASCII]. intros H.
  apply orb_false_iff in H as [Hc Hs].
  unfold strings.toUpperByte. rewrite Hc, (IH Hs). reflexivity.
Qed.

(** The two ASCII branches of [strings.ToUpper] compute the same string. *)
Lemma ToUpper_eq s :
  strings.ToUpper up s = if strings.isASCII s then strings.upperASCII s else up s.
Proof.
  unfold strings.ToUpper. destruct (strings.isASCII s); [|reflexivity].
  destruct (strings.hasLower s) eqn:Hl; [reflexivity|].
  symmetry. apply upperASCII_no_lower, Hl.
Qed.

Lemma case_variant_ToUpper s name :
  upper_name name -> (case_variant s name <-> strings.ToUpper up s = name).
Proof.
  intros Hn. rewrite ToUpper_eq. split.
  - intros [Hv | [Hna Hup]].
    + destruct (ascii_case_variant_upper _ _ Hn Hv) as [-> ->]. reflexivity.
    + rewrite Hna. exact Hup.
  - destruct (strings.isASCII s) eqn:Ha; intros <-.
    + left. apply upperASCII_case_variant.
    + right. split; [exact Ha | reflexivity].
Qed.

Lemma level_names_upper name lvl :
  In (name, lvl) level_names -> upper_name name.
Proof.
  unfold level_names. cbn [In]. intros H.
  repeat (destruct H as [H | H]; [injection H as <- <-|]); try contradiction;
    intros c Hc; cbn in Hc;
    repeat (destruct Hc as [<- | Hc]; [reflexivity|]); contradiction.
Qed.

Lemma ZapLogLevelFromString_known logLevel name lvl :
  In (name, lvl) level_names -> strings.ToUpper up logLevel = name ->
  ZapLogLevelFromString up logLevel = (lvl, None).
Proof.
  unfold level_names. cbn [In]. intros H Hu. unfold ZapLogLevelFromString.
  rewrite Hu.
  repeat (destruct H as [H | H]; [injection H as <- <-; reflexivity|]).
  contradiction.
Qed.

Lemma ZapLogLevelFromString_unknown logLevel :
  (forall name lvl, In (name, lvl) level_names -> strings.ToUpper up logLevel <> name) ->
  ZapLogLevelFromString up logLevel = (-1, Some (unknown_log_level logLevel)).
Proof.
  intros H. unfold ZapLogLevelFromString.
  repeat match goal with
  | |- context [String.eqb ?u ?n] =>
      let E := fresh "E" in
      destruct (String.eqb_spec u n) as [E | E];
      [ exfalso; revert E; eapply H; unfold level_names; cbn [In]; eauto 10 | ]
  end.
  reflexivity.
Qed.

Lemma unknown_log_level_contains logLevel :
  contains (unknown_log_level logLevel) logLevel.
Proof.
  exists "unknown log level: ", EmptyString. unfold unknown_log_level.
  f_equal. clear. induction logLevel as [|c s IH]; [reflexivity|].
  cbn. f_equal. exact IH.
Qed.

End LevelParserFacts.

(** The parser either finds the upper-cased input among the six names, or
    answers -1 and the error. *)
Lemma ZapLogLevelFromString_cases (up : string -> string) (logLevel : string) :
  (exists name lvl,
      In (name, lvl) level_names
      /\ strings.ToUpper up logLevel = name
      /\ ZapLogLevelFromString up logLevel = (lvl, None))
  \/ ((forall name lvl, In (name, lvl) level_names -> strings.ToUpper up logLevel <> name)
      /\ ZapLogLevelFromString up logLevel = (-1, Some (unknown_log_level logLevel))).
Proof.
  destruct (existsb (fun p => (strings.ToUpper up logLevel =? fst p)%string) level_names)
    eqn:Hex.
  - left. apply existsb_exists in Hex as [[name lvl] [Hin Heq]].
    apply String.eqb_eq in Heq. cbn [fst] in Heq.
    exists name, lvl. split; [exact Hin|]. split; [exact Heq|].
    apply ZapLogLevelFromString_known with (name := name); assumption.
  - right.
    assert (Hno : forall name lvl,
               In (name, lvl) level_names -> strings.ToUpper up logLevel <> name).
    { intros name lvl Hin Heq.
      assert (Ht : existsb (fun p => (strings.ToUpper up logLevel =? fst p)%string)
                     level_names = true).
      { apply existsb_exists. exists (name, lvl). split; [exact Hin|].
        apply String.eqb_eq. exact Heq. }
      rewrite Ht in Hex. discriminate. }
    split; [exact Hno | apply ZapLogLevelFromString_unknown, Hno].
Qed.


(** ** UTF-8 and the Unicode path of [strings.ToUpper] *)

(** *** Bytes *)

Lemma byte_range c : 0 <= utf8.byte c < 256.
Proof. unfold utf8.byte. pose proof (nat_ascii_bounded c). lia. Qed.

Lemma chr_byte c : utf8.chr (utf8.byte c) = c.
Proof. unfold utf8.chr, utf8.byte. rewrite Nat2Z.id. apply ascii_nat_embedding. Qed.

Lemma byte_chr b : 0 <= b < 256 -> utf8.byte (utf8.chr b) = b.
Proof.
  intros Hb. unfold utf8.chr, utf8.byte.
  rewrite nat_ascii_embedding by lia. lia.
Qed.

Definition all_bytes : list ascii := map ascii_of_nat (seq 0 256).

Lemma all_bytes_In c : In c all_bytes.
Proof.
  unfold all_bytes. apply in_map_iff. exists (nat_of_ascii c).
  split; [apply ascii_nat_embedding|]. apply in_seq.
  pose proof (nat_ascii_bounded c). lia.
Qed.

(** A property of two bytes that holds of all 65536 pairs. *)
Lemma forall_bytes2 (P : ascii -> ascii -> bool) :
  forallb (fun a => forallb (P a) all_bytes) all_bytes = true ->
  forall a b, P a b = true.
Proof.
  intros H a b. rewrite forallb_forall in H.
  specialize (H a (all_bytes_In a)). rewrite forallb_forall in H.
  exact (H b (all_bytes_In b)).
Qed.

Lemma lor_ge a b : 0 <= b -> a <= Z.lor a b.
Proof.
  intros Hb. pose proof (Z.sub_lor_l_same_l b a) as H.
  assert (0 <= Z.land b (Z.lnot a)) by (apply Z.land_nonneg; left; exact Hb).
  lia.
Qed.

Lemma land_byte_nonneg c m : 0 <= Z.land (utf8.byte c) m.
Proof. apply Z.land_nonneg. left. apply byte_range. Qed.

(** *** Decoding *)

(** The first byte and the second byte of a sequence are well-formed. *)
Definition accepted (c0 c1 : ascii) : option nat :=
  match utf8.first (utf8.byte c0) with
  | utf8.sq sz lo hi =>
      if (utf8.byte c1 <? lo) || (hi <? utf8.byte c1) then None else Some sz
  | _ => None
  end.

Definition two (c0 c1 : ascii) : Z :=
  Z.lor (Z.shiftl (Z.land (utf8.byte c0) 31) 6) (Z.land (utf8.byte c1) 63).
Definition three01 (c0 c1 : ascii) : Z :=
  Z.lor (Z.shiftl (Z.land (utf8.byte c0) 15) 12) (Z.shiftl (Z.land (utf8.byte c1) 63) 6).
Definition four01 (c0 c1 : ascii) : Z :=
  Z.lor (Z.shiftl (Z.land (utf8.byte c0) 7) 18) (Z.shiftl (Z.land (utf8.byte c1) 63) 12).

Definition decode_check (c0 c1 : ascii) : bool :=
  match accepted c0 c1 with
  | Some 2%nat =>
      (128 <=? two c0 c1)
      && (implb (two c0 c1 =? 305)
            ((utf8.byte c0 =? 196) && (utf8.byte c1 =? 177)))
      && (implb (two c0 c1 =? 383)
            ((utf8.byte c0 =? 197) && (utf8.byte c1 =? 191)))
  | Some 3%nat => 2048 <=? three01 c0 c1
  | Some _ => 65536 <=? four01 c0 c1
  | None => true
  end.

Lemma decode_check_all c0 c1 : decode_check c0 c1 = true.
Proof. revert c0 c1. apply forall_bytes2. vm_compute. reflexivity. Qed.

Lemma first_cases s0 :
  match utf8.first s0 with
  | utf8.as_ => s0 < 128
  | utf8.xx => 128 <= s0
  | utf8.sq sz _ _ => 128 <= s0 /\ (sz = 2 \/ sz = 3 \/ sz = 4)%nat
  end.
Proof.
  unfold utf8.first.
  repeat match goal with
  | |- context [?a <? ?b] => destruct (Z.ltb_spec a b)
  | |- context [?a =? ?b] => destruct (Z.eqb_spec a b)
  end; try lia; split; try lia; auto.
Qed.

(** What [DecodeRuneInString] can answer on a string that is not empty. *)
Lemma Decode_cases c0 t c w :
  utf8.DecodeRuneInString (String c0 t) = (c, w) ->
  (utf8.byte c0 < 128 /\ c = utf8.byte c0 /\ w = 1%nat)
  \/ (128 <= utf8.byte c0 /\ c = utf8.RuneError /\ w = 1%nat)
  \/ (exists c1 t1,
        t = String c1 t1 /\ accepted c0 c1 = Some 2%nat /\ c = two c0 c1 /\ w = 2%nat)
  \/ (128 <= utf8.byte c0 /\ 2048 <= c /\ (3 <= w <= 4)%nat
      /\ (w <= String.length (String c0 t))%nat).
Proof.
  unfold utf8.DecodeRuneInString.
  pose proof (first_cases (utf8.byte c0)) as Hf.
  destruct (utf8.first (utf8.byte c0)) as [| | sz lo hi] eqn:Hfirst.
  - intros H. injection H as <- <-. left. auto.
  - intros H. injection H as <- <-. right; left. auto.
  - destruct Hf as [H0 Hsz].
    destruct (Nat.ltb (String.length (String c0 t)) sz) eqn:Hlen;
      [intros H; injection H as <- <-; right; left; auto|].
    apply Nat.ltb_ge in Hlen.
    destruct t as [|c1 t1]; [intros H; injection H as <- <-; right; left; auto|].
    pose proof (decode_check_all c0 c1) as Hchk. unfold decode_check, accepted in Hchk.
    assert (Hacc : accepted c0 c1
                   = if (utf8.byte c1 <? lo) || (hi <? utf8.byte c1) then None else Some sz)
      by (unfold accepted; rewrite Hfirst; reflexivity).
    rewrite Hfirst in Hchk.
    destruct ((utf8.byte c1 <? lo) || (hi <? utf8.byte c1));
      [intros H; injection H as <- <-; right; left; auto|].
    destruct Hsz as [-> | [-> | ->]];
      change (Nat.leb 2 2) with true; change (Nat.leb 3 2) with false;
      change (Nat.leb 3 3) with true; change (Nat.leb 4 2) with false;
      change (Nat.leb 4 3) with false; cbv iota.
    + intros H. injection H as <- <-. right; right; left.
      exists c1, t1. repeat split. exact Hacc.
    + destruct t1 as [|c2 t2]; [intros H; injection H as <- <-; right; left; auto|].
      destruct ((utf8.byte c2 <? 128) || (191 <? utf8.byte c2));
        [intros H; injection H as <- <-; right; left; auto|].
      intros H. injection H as <- <-. right; right; right.
      apply Z.leb_le in Hchk. split; [exact H0|]. split; [|split; [lia | cbn [String.length]; lia]].
      pose proof (lor_ge (three01 c0 c1) (Z.land (utf8.byte c2) 63)
                    (land_byte_nonneg _ _)) as H.
      unfold three01 in *. eapply Z.le_trans; [exact Hchk | exact H].
    + destruct t1 as [|c2 t2]; [intros H; injection H as <- <-; right; left; auto|].
      destruct ((utf8.byte c2 <? 128) || (191 <? utf8.byte c2));
        [intros H; injection H as <- <-; right; left; auto|].
      destruct t2 as [|c3 t3]; [intros H; injection H as <- <-; right; left; auto|].
      destruct ((utf8.byte c3 <? 128) || (191 <? utf8.byte c3));
        [intros H; injection H as <- <-; right; left; auto|].
      intros H. injection H as <- <-. right; right; right.
      apply Z.leb_le in Hchk. split; [exact H0|]. split; [|split; [lia | cbn [String.length]; lia]].
      pose proof (lor_ge (four01 c0 c1) (Z.shiftl (Z.land (utf8.byte c2) 63) 6)) as H1.
      pose proof (lor_ge (Z.lor (four01 c0 c1) (Z.shiftl (Z.land (utf8.byte c2) 63) 6))
                    (Z.land (utf8.byte c3) 63) (land_byte_nonneg _ _)) as H2.
      assert (0 <= Z.shiftl (Z.land (utf8.byte c2) 63) 6)
        by (apply Z.shiftl_nonneg, land_byte_nonneg).
      specialize (H1 H). unfold four01 in *.
      assert (Hk : 2048 <= four01 c0 c1) by (unfold four01; lia).
      unfold four01 in Hk.
      eapply Z.le_trans; [exact Hk|]. eapply Z.le_trans; [exact H1 | exact H2].
Qed.

Lemma two_facts c0 c1 :
  accepted c0 c1 = Some 2%nat ->
  128 <= two c0 c1
  /\ (two c0 c1 = 305 -> utf8.byte c0 = 196 /\ utf8.byte c1 = 177)
  /\ (two c0 c1 = 383 -> utf8.byte c0 = 197 /\ utf8.byte c1 = 191).
Proof.
  intros Ha. pose proof (decode_check_all c0 c1) as H. unfold decode_check in H.
  rewrite Ha in H. apply andb_true_iff in H as [H H3]. apply andb_true_iff in H as [H1 H2].
  apply Z.leb_le in H1. split; [exact H1|]. split; intros E.
  - rewrite E in H2. cbn in H2. apply andb_true_iff in H2 as [A B].
    apply Z.eqb_eq in A, B. auto.
  - rewrite E in H3. cbn in H3. apply andb_true_iff in H3 as [A B].
    apply Z.eqb_eq in A, B. auto.
Qed.

Lemma byte_inj c b : 0 <= b < 256 -> utf8.byte c = b -> c = utf8.chr b.
Proof. intros _ <-. symmetry. apply chr_byte. Qed.

(** A decoded rune is not negative, and it takes at least one byte and no
    more than there are. *)
Lemma Decode_bounds c0 t c w :
  utf8.DecodeRuneInString (String c0 t) = (c, w) ->
  0 <= c /\ (1 <= w <= String.length (String c0 t))%nat.
Proof.
  intros H. pose proof (byte_range c0).
  destruct (Decode_cases _ _ _ _ H)
    as [(_ & -> & ->) | [(_ & -> & ->) | [(c1 & t1 & -> & Ha & -> & ->) | (_ & Hc & Hw & Hl)]]].
  - cbn [String.length]. lia.
  - cbn [String.length]. unfold utf8.RuneError. lia.
  - destruct (two_facts _ _ Ha) as [H2 _]. cbn [String.length]. lia.
  - lia.
Qed.

(** A rune below [RuneSelf] is decoded from one byte, the rune itself. *)
Lemma Decode_ascii c0 t c w :
  utf8.DecodeRuneInString (String c0 t) = (c, w) -> c < 128 ->
  c = utf8.byte c0 /\ w = 1%nat.
Proof.
  intros H Hc.
  destruct (Decode_cases _ _ _ _ H)
    as [(_ & -> & ->) | [(_ & -> & ->) | [(c1 & t1 & -> & Ha & -> & ->) | (_ & Hc' & _)]]].
  - auto.
  - unfold utf8.RuneError in Hc. lia.
  - destruct (two_facts _ _ Ha) as [H2 _]. lia.
  - lia.
Qed.

Lemma Decode_first_ascii c0 t :
  utf8.byte c0 < 128 -> utf8.DecodeRuneInString (String c0 t) = (utf8.byte c0, 1%nat).
Proof.
  intros H. unfold utf8.DecodeRuneInString.
  pose proof (first_cases (utf8.byte c0)) as Hf.
  destruct (utf8.first (utf8.byte c0)); [reflexivity | lia | lia].
Qed.

(** The dotless i and the long s are decoded from their two bytes only. *)
Lemma Decode_dotless_i s w :
  utf8.DecodeRuneInString s = (305, w) ->
  exists t, s = String (utf8.chr 196) (String (utf8.chr 177) t) /\ w = 2%nat.
Proof.
  destruct s as [|c0 t]; [discriminate|]. intros H.
  destruct (Decode_cases _ _ _ _ H)
    as [(Hb & E & _) | [(_ & E & _) | [(c1 & t1 & -> & Ha & E & ->) | (_ & Hc & _)]]].
  - pose proof (byte_range c0). lia.
  - discriminate E.
  - destruct (two_facts _ _ Ha) as (_ & Hi & _). destruct (Hi (eq_sym E)) as [A B].
    exists t1. rewrite (byte_inj c0 196), (byte_inj c1 177) by (trivial; lia). auto.
  - lia.
Qed.

Lemma Decode_long_s s w :
  utf8.DecodeRuneInString s = (383, w) ->
  exists t, s = String (utf8.chr 197) (String (utf8.chr 191) t) /\ w = 2%nat.
Proof.
  destruct s as [|c0 t]; [discriminate|]. intros H.
  destruct (Decode_cases _ _ _ _ H)
    as [(Hb & E & _) | [(_ & E & _) | [(c1 & t1 & -> & Ha & E & ->) | (_ & Hc & _)]]].
  - pose proof (byte_range c0). lia.
  - discriminate E.
  - destruct (two_facts _ _ Ha) as (_ & _ & Hs). destruct (Hs (eq_sym E)) as [A B].
    exists t1. rewrite (byte_inj c0 197), (byte_inj c1 191) by (trivial; lia). auto.
  - lia.
Qed.

(** *** Encoding *)

Lemma log2_byte a : 0 <= a < 256 -> Z.log2 a < 8.
Proof.
  intros H. destruct (Z.eq_dec a 0) as [-> | Hn]; [reflexivity|].
  apply Z.log2_lt_pow2; [lia|]. change (2 ^ 8) with 256. lia.
Qed.

Lemma lor_lt_256 a b : 0 <= a < 256 -> 0 <= b < 256 -> Z.lor a b < 256.
Proof.
  intros Ha Hb.
  assert (H0 : 0 <= Z.lor a b) by (apply Z.lor_nonneg; lia).
  destruct (Z.eq_dec (Z.lor a b) 0) as [E | Hn]; [lia|].
  change 256 with (2 ^ 8). apply Z.log2_lt_pow2; [lia|].
  rewrite Z.log2_lor by lia.
  pose proof (log2_byte a Ha). pose proof (log2_byte b Hb). lia.
Qed.

(** The first byte of a sequence of two or more bytes. *)
Lemma lead_byte k r n :
  128 <= k < 256 -> 0 <= r -> 0 <= n -> r < 256 * 2 ^ n ->
  128 <= utf8.byte (utf8.chr (Z.lor k (Z.shiftr r n))).
Proof.
  intros Hk Hr Hn Hlt.
  assert (Hs : 0 <= Z.shiftr r n < 256).
  { rewrite Z.shiftr_div_pow2 by exact Hn. split.
    - apply Z.div_pos; [exact Hr | apply Z.pow_pos_nonneg; lia].
    - apply Z.div_lt_upper_bound; [apply Z.pow_pos_nonneg; lia | lia]. }
  rewrite byte_chr.
  - pose proof (lor_ge k (Z.shiftr r n) (proj1 Hs)). lia.
  - split; [apply Z.lor_nonneg; lia | apply lor_lt_256; lia].
Qed.

Lemma AppendRune_ascii r :
  0 <= r <= 127 -> utf8.AppendRune r = String (utf8.chr r) EmptyString.
Proof.
  intros H. unfold utf8.AppendRune.
  destruct (Z.leb_spec r 127); [reflexivity | lia].
Qed.

(** A rune that is not ASCII is written with a first byte that is not. *)
Lemma AppendRune_nonascii r :
  127 < r -> exists c t, utf8.AppendRune r = String c t /\ 128 <= utf8.byte c.
Proof.
  intros H. unfold utf8.AppendRune, utf8.MaxRune.
  destruct (Z.leb_spec r 127); [lia|].
  destruct (Z.leb_spec r 2047).
  { eexists; eexists; split; [reflexivity|].
    apply lead_byte; [lia | lia | lia | change (2 ^ 6) with 64; lia]. }
  destruct ((1114111 <? r) || ((55296 <=? r) && (r <=? 57343))) eqn:Hbad; cbn [orb].
  { eexists; eexists; split; [reflexivity|]. vm_compute. discriminate. }
  apply orb_false_iff in Hbad as [Hmax _]. apply Z.ltb_ge in Hmax.
  destruct (Z.leb_spec r 65535).
  - eexists; eexists; split; [reflexivity|].
    apply lead_byte; [lia | lia | lia | change (2 ^ 12) with 4096; lia].
  - eexists; eexists; split; [reflexivity|].
    apply lead_byte; [lia | lia | lia | change (2 ^ 18) with 262144; lia].
Qed.

(** *** Case variants *)

(** [s] spells [name] letter by letter: each letter in either ASCII case,
    an I also as the dotless i (U+0131, the bytes C4 B1) and an S also as the
    long s (U+017F, the bytes C5 BF). *)
Inductive unicode_case_variant : string -> string -> Prop :=
| ucv_nil : unicode_case_variant EmptyString EmptyString
| ucv_letter c u s name :
    letter_variant c u -> unicode_case_variant s name ->
    unicode_case_variant (String c s) (String u name)
| ucv_dotless_i s name :
    unicode_case_variant s name ->
    unicode_case_variant (String (utf8.chr 196) (String (utf8.chr 177) s)) (String "I" name)
| ucv_long_s s name :
    unicode_case_variant s name ->
    unicode_case_variant (String (utf8.chr 197) (String (utf8.chr 191) s)) (String "S" name).

Lemma ascii_unicode_case_variant s name :
  ascii_case_variant s name -> unicode_case_variant s name.
Proof. induction 1; [constructor | constructor; assumption]. Qed.

Lemma unicode_case_variant_ascii s name :
  unicode_case_variant s name -> strings.isASCII s = true -> ascii_case_variant s name.
Proof.
  induction 1 as [|c u s name Hl Hv IH|s name Hv IH|s name Hv IH];
    cbn [strings.isASCII]; intros Ha.
  - constructor.
  - apply andb_true_iff in Ha as [_ Ha]. constructor; [exact Hl | exact (IH Ha)].
  - discriminate Ha.
  - discriminate Ha.
Qed.

Lemma byte_eq c d : utf8.byte c = utf8.byte d -> c = d.
Proof. intros H. rewrite <- (chr_byte c), <- (chr_byte d), H. reflexivity. Qed.

Lemma isUpper_byte u : isUpper u = true -> 65 <= utf8.byte u <= 90.
Proof.
  unfold isUpper, utf8.byte. intros H. apply andb_true_iff in H as [H1 H2].
  apply Nat.leb_le in H1, H2. lia.
Qed.

Lemma upper_name_tail u name : upper_name (String u name) -> upper_name name.
Proof. intros H c Hc. apply H. right. exact Hc. Qed.

Lemma upper_name_head u name : upper_name (String u name) -> isUpper u = true.
Proof. intros H. apply H. left. reflexivity. Qed.

Lemma toUpperByte_letter_variant c : letter_variant c (strings.toUpperByte c).
Proof.
  destruct (strings.isLower c) eqn:Hl.
  - right. apply toUpperByte_lower, Hl.
  - left. unfold strings.toUpperByte. rewrite Hl. reflexivity.
Qed.

(** *** Ranging over a string *)

Lemma drop_length w s : String.length (drop w s) = (String.length s - w)%nat.
Proof.
  revert s. induction w as [|w IH]; intros [|c s]; cbn [drop String.length]; try lia.
  rewrite IH. lia.
Qed.

Lemma range_fuel_cons n c0 t c w :
  utf8.DecodeRuneInString (String c0 t) = (c, w) ->
  range_fuel (S n) (String c0 t)
  = (c, take w (String c0 t)) :: range_fuel n (drop w (String c0 t)).
Proof.
  intros H. change (range_fuel (S n) (String c0 t))
    with (let '(c, w) := utf8.DecodeRuneInString (String c0 t) in
          (c, take w (String c0 t)) :: range_fuel n (drop w (String c0 t))).
  rewrite H. reflexivity.
Qed.

Lemma range_fuel_empty n : range_fuel n EmptyString = [].
Proof. destruct n; reflexivity. Qed.

Lemma Decode_nonascii c0 t c w :
  utf8.DecodeRuneInString (String c0 t) = (c, w) -> 128 <= c -> 128 <= utf8.byte c0.
Proof.
  intros H Hc.
  destruct (Decode_cases _ _ _ _ H)
    as [(Hb & -> & _) | [(Hb & _) | [(c1 & t1 & -> & Ha & _) | (Hb & _)]]];
    try assumption; try lia.
  unfold accepted in Ha. pose proof (first_cases (utf8.byte c0)) as Hf.
  destruct (utf8.first (utf8.byte c0)); try discriminate. apply Hf.
Qed.

(** *** [strings.Map(unicode.ToUpper, s)] *)

Section Upper.

Variable CaseRanges_upper : Z -> Z.

(** Of the runes above [MaxASCII], only the dotless i and the long s have an
    ASCII upper case. *)
Hypothesis CaseRanges_upper_above :
  forall r, 127 < r -> r <> 305 -> r <> 383 -> 127 < CaseRanges_upper r.

Let mapping := unicode.ToUpper CaseRanges_upper.

Lemma ToUpper_byte c : utf8.byte c < 128 -> mapping (utf8.byte c) = utf8.byte (strings.toUpperByte c).
Proof.
  intros Hc. unfold mapping, unicode.ToUpper, unicode.MaxASCII, strings.toUpperByte,
    strings.isLower, utf8.byte in *.
  set (n := nat_of_ascii c) in *.
  destruct (Z.leb_spec (Z.of_nat n) 127); [|lia].
  destruct (Nat.leb_spec 97 n), (Nat.leb_spec n 122),
    (Z.leb_spec 97 (Z.of_nat n)), (Z.leb_spec (Z.of_nat n) 122);
    cbn [andb]; try lia; try reflexivity.
  rewrite nat_ascii_embedding by lia. lia.
Qed.

Lemma ToUpper_nonascii r :
  127 < r ->
  (r = 305 /\ mapping r = 73) \/ (r = 383 /\ mapping r = 83) \/ 127 < mapping r.
Proof.
  intros Hr. unfold mapping, unicode.ToUpper, unicode.MaxASCII, unicode.To_UpperCase.
  destruct (Z.leb_spec r 127); [lia|].
  destruct (Z.eqb_spec r 305) as [-> | H1]; [left; split; reflexivity|].
  destruct (Z.eqb_spec r 383) as [-> | H2]; [right; left; split; reflexivity|].
  right; right. apply CaseRanges_upper_above; assumption.
Qed.

Lemma Map_rest_cons c b rs :
  Map_rest mapping ((c, b) :: rs)
  = String.append (if 0 <=? mapping c then utf8.AppendRune (mapping c) else EmptyString)
      (Map_rest mapping rs).
Proof. reflexivity. Qed.

Lemma Map_first_cons c b rs :
  Map_first mapping ((c, b) :: rs)
  = if (mapping c =? c)
       && (negb (c =? utf8.RuneError) || negb (Nat.eqb (String.length b) 1))
    then (b ++ Map_first mapping rs)%string
    else Map_rest mapping ((c, b) :: rs).
Proof. reflexivity. Qed.

(** What an ASCII byte contributes to the output, in either loop. *)
Lemma Map_ascii_byte n c t :
  utf8.byte c < 128 ->
  Map_rest mapping (range_fuel (S n) (String c t))
  = String (strings.toUpperByte c) (Map_rest mapping (range_fuel n t))
  /\ (Map_first mapping (range_fuel (S n) (String c t))
      = String (strings.toUpperByte c) (Map_first mapping (range_fuel n t))
      \/ Map_first mapping (range_fuel (S n) (String c t))
         = String (strings.toUpperByte c) (Map_rest mapping (range_fuel n t))).
Proof.
  intros Hc. rewrite (range_fuel_cons n c t _ _ (Decode_first_ascii c t Hc)).
  cbn [take drop]. rewrite Map_first_cons, Map_rest_cons, (ToUpper_byte c Hc).
  pose proof (byte_range (strings.toUpperByte c)) as Hu.
  assert (Hu' : utf8.byte (strings.toUpperByte c) < 128).
  { rewrite <- (ToUpper_byte c Hc). unfold mapping, unicode.ToUpper, unicode.MaxASCII.
    destruct (Z.leb_spec (utf8.byte c) 127); [|lia].
    destruct ((97 <=? utf8.byte c) && (utf8.byte c <=? 122)); lia. }
  destruct (Z.leb_spec 0 (utf8.byte (strings.toUpperByte c))); [|lia].
  rewrite AppendRune_ascii by lia. rewrite chr_byte. cbn [String.append].
  split; [reflexivity|].
  destruct ((utf8.byte (strings.toUpperByte c) =? utf8.byte c)
            && (negb (utf8.byte c =? utf8.RuneError)
                || negb (Nat.eqb (String.length (String c EmptyString)) 1))) eqn:E.
  - left. apply andb_true_iff in E as [E _]. apply Z.eqb_eq, byte_eq in E.
    rewrite E. reflexivity.
  - right. reflexivity.
Qed.

(** The dotless i and the long s are written as I and S by the second loop,
    which the first loop hands over to. *)
Lemma Map_two_bytes n b0 b1 c u t :
  (forall t, utf8.DecodeRuneInString (String (utf8.chr b0) (String (utf8.chr b1) t))
             = (c, 2%nat)) ->
  mapping c = utf8.byte u -> utf8.byte u < 128 -> utf8.byte u <> c ->
  Map_rest mapping (range_fuel (S n) (String (utf8.chr b0) (String (utf8.chr b1) t)))
  = String u (Map_rest mapping (range_fuel n t))
  /\ Map_first mapping (range_fuel (S n) (String (utf8.chr b0) (String (utf8.chr b1) t)))
     = String u (Map_rest mapping (range_fuel n t)).
Proof.
  intros Hd Hm Hu Hne. rewrite (range_fuel_cons n _ _ _ _ (Hd t)).
  cbn [take drop]. rewrite Map_first_cons, Map_rest_cons, Hm.
  pose proof (byte_range u).
  destruct (Z.leb_spec 0 (utf8.byte u)); [|lia].
  rewrite AppendRune_ascii by lia. rewrite chr_byte. cbn [String.append].
  destruct (Z.eqb_spec (utf8.byte u) c); [contradiction|]. cbn [andb].
  split; reflexivity.
Qed.

Lemma Decode_305 t :
  utf8.DecodeRuneInString (String (utf8.chr 196) (String (utf8.chr 177) t)) = (305, 2%nat).
Proof. reflexivity. Qed.

Lemma Decode_383 t :
  utf8.DecodeRuneInString (String (utf8.chr 197) (String (utf8.chr 191) t)) = (383, 2%nat).
Proof. reflexivity. Qed.

Lemma mapping_305 : mapping 305 = utf8.byte "I".
Proof. reflexivity. Qed.

Lemma mapping_383 : mapping 383 = utf8.byte "S".
Proof. reflexivity. Qed.

(** A rune that stays above ASCII leaves a byte that is not ASCII at the
    head of the output, in either loop. *)
Lemma Map_nonascii n c0 t c w :
  utf8.DecodeRuneInString (String c0 t) = (c, w) ->
  127 < c -> 127 < mapping c ->
  forall out,
    Map_first mapping (range_fuel (S n) (String c0 t)) = out
    \/ Map_rest mapping (range_fuel (S n) (String c0 t)) = out ->
    exists d rest, out = String d rest /\ 128 <= utf8.byte d.
Proof.
  intros Hd Hc Hm out Hout. rewrite (range_fuel_cons n _ _ _ _ Hd) in Hout.
  destruct (Decode_bounds _ _ _ _ Hd) as [_ [Hw _]].
  assert (Hrest : exists d rest,
             Map_rest mapping ((c, take w (String c0 t))
                                 :: range_fuel n (drop w (String c0 t)))
             = String d rest /\ 128 <= utf8.byte d).
  { rewrite Map_rest_cons. destruct (Z.leb_spec 0 (mapping c)); [|lia].
    destruct (AppendRune_nonascii _ Hm) as (d & r & -> & Hb).
    cbn [String.append]. eauto. }
  rewrite Map_first_cons in Hout.
  destruct Hout as [Hout | Hout]; [|rewrite <- Hout; exact Hrest].
  destruct ((mapping c =? c) && _) in Hout; [|rewrite <- Hout; exact Hrest].
  destruct w as [|w]; [lia|]. cbn [take String.append] in Hout.
  rewrite <- Hout. eexists; eexists; split; [reflexivity|].
  apply (Decode_nonascii _ _ _ _ Hd). lia.
Qed.

(** The output is a name only for a case variant of it. *)
Lemma Map_case_variant n :
  forall s name,
    (String.length s <= n)%nat -> upper_name name ->
    Map_first mapping (range_fuel n s) = name
    \/ Map_rest mapping (range_fuel n s) = name ->
    unicode_case_variant s name.
Proof.
  induction n as [|n IH]; intros s name Hlen Hn Hout.
  - destruct s; [|cbn in Hlen; lia]. cbn in Hout.
    destruct Hout as [<- | <-]; constructor.
  - destruct s as [|c0 t].
    + cbn in Hout. destruct Hout as [<- | <-]; constructor.
    + cbn [String.length] in Hlen.
      destruct (utf8.DecodeRuneInString (String c0 t)) as [c w] eqn:Hd.
      destruct (Z.lt_ge_cases c 128) as [Hc | Hc].
      * destruct (Decode_ascii _ _ _ _ Hd Hc) as [-> ->].
        destruct (Map_ascii_byte n c0 t Hc) as [Hr Hf].
        assert (Hname : exists name',
                   name = String (strings.toUpperByte c0) name'
                   /\ (Map_first mapping (range_fuel n t) = name'
                       \/ Map_rest mapping (range_fuel n t) = name')).
        { destruct Hout as [<- | <-].
          - destruct Hf as [-> | ->]; eexists; split; eauto.
          - rewrite Hr. eexists; split; eauto. }
        destruct Hname as (name' & -> & Hout').
        apply ucv_letter; [apply toUpperByte_letter_variant|].
        apply (IH t name'); [lia | eapply upper_name_tail, Hn | exact Hout'].
      * destruct (ToUpper_nonascii c) as [[-> Hm] | [[-> Hm] | Hm]]; [lia | | |].
        -- destruct (Decode_dotless_i _ _ Hd) as (t' & E & ->).
           injection E as E0 Et. subst c0 t. cbn [String.length] in Hlen.
           destruct (Map_two_bytes n 196 177 305 "I" t' Decode_305 mapping_305)
             as [Hr Hf]; [reflexivity | discriminate|].
           assert (Hname : name = String "I" (Map_rest mapping (range_fuel n t')))
             by (destruct Hout as [<- | <-]; [exact Hf | exact Hr]).
           rewrite Hname in *. apply ucv_dotless_i.
           apply (IH t' _); [lia | eapply upper_name_tail, Hn | right; reflexivity].
        -- destruct (Decode_long_s _ _ Hd) as (t' & E & ->).
           injection E as E0 Et. subst c0 t. cbn [String.length] in Hlen.
           destruct (Map_two_bytes n 197 191 383 "S" t' Decode_383 mapping_383)
             as [Hr Hf]; [reflexivity | discriminate|].
           assert (Hname : name = String "S" (Map_rest mapping (range_fuel n t')))
             by (destruct Hout as [<- | <-]; [exact Hf | exact Hr]).
           rewrite Hname in *. apply ucv_long_s.
           apply (IH t' _); [lia | eapply upper_name_tail, Hn | right; reflexivity].
        -- destruct (Map_nonascii n _ _ _ _ Hd ltac:(lia) Hm name Hout)
             as (d & rest & -> & Hb).
           pose proof (isUpper_byte d (upper_name_head _ _ Hn)). lia.
Qed.

(** A case variant of a name is mapped to the name, by either loop. *)
Lemma case_variant_Map s name :
  unicode_case_variant s name -> upper_name name ->
  forall n, (String.length s <= n)%nat ->
    Map_first mapping (range_fuel n s) = name
    /\ Map_rest mapping (range_fuel n s) = name.
Proof.
  induction 1 as [|c u s name Hl Hv IH|s name Hv IH|s name Hv IH]; intros Hn n Hlen.
  - rewrite range_fuel_empty. split; reflexivity.
  - destruct n as [|n]; [cbn in Hlen; lia|]. cbn [String.length] in Hlen.
    pose proof (upper_name_head _ _ Hn) as Hu.
    assert (Hc : utf8.byte c < 128).
    { pose proof (letter_variant_ascii _ _ Hl Hu) as H.
      apply Nat.ltb_lt in H. unfold strings.RuneSelf in H. unfold utf8.byte. lia. }
    destruct (IH (upper_name_tail _ _ Hn) n ltac:(lia)) as [IH1 IH2].
    destruct (Map_ascii_byte n c s Hc) as [Hr Hf].
    rewrite (toUpperByte_variant _ _ Hl Hu) in Hr, Hf.
    rewrite IH1, IH2 in *. split; [destruct Hf; assumption | exact Hr].
  - destruct n as [|[|n]]; try (cbn in Hlen; lia). cbn [String.length] in Hlen.
    destruct (IH (upper_name_tail _ _ Hn) (S n) ltac:(lia)) as [_ IH2].
    destruct (Map_two_bytes (S n) 196 177 305 "I" s Decode_305 mapping_305)
      as [Hr Hf]; [reflexivity | discriminate|].
    rewrite IH2 in *. split; assumption.
  - destruct n as [|[|n]]; try (cbn in Hlen; lia). cbn [String.length] in Hlen.
    destruct (IH (upper_name_tail _ _ Hn) (S n) ltac:(lia)) as [_ IH2].
    destruct (Map_two_bytes (S n) 197 191 383 "S" s Decode_383 mapping_383)
      as [Hr Hf]; [reflexivity | discriminate|].
    rewrite IH2 in *. split; assumption.
Qed.

(** [strings.ToUpper] takes a string to a name exactly when the string is a
    case variant of the name. *)
Lemma ToUpper_unicode_case_variant s name :
  upper_name name ->
  (strings.ToUpper (strings_Map mapping) s = name <-> unicode_case_variant s name).
Proof.
  intros Hn. rewrite ToUpper_eq. destruct (strings.isASCII s) eqn:Ha; split.
  - intros <-. apply ascii_unicode_case_variant, upperASCII_case_variant.
  - intros Hv. apply (ascii_case_variant_upper _ _ Hn).
    apply unicode_case_variant_ascii; assumption.
  - intros H. apply (Map_case_variant (String.length s)); [lia | exact Hn | left; exact H].
  - intros Hv. apply (case_variant_Map s name Hv Hn). lia.
Qed.

End Upper.

(** No name is a case variant of an ASCII string that upper-cases to
    something else. *)
Lemma not_case_variant_ascii (up : string -> string) (s : string) :
  strings.isASCII s = true ->
  (forall name lvl, In (name, lvl) level_names -> strings.upperASCII s <> name) ->
  forall name lvl, In (name, lvl) level_names -> ~ case_variant up s name.
Proof.
  intros Ha Hne name lvl Hin Hv.
  apply case_variant_ToUpper in Hv; [|eapply level_names_upper, Hin].
  rewrite ToUpper_eq, Ha in Hv. exact (Hne name lvl Hin Hv).
Qed.

Ltac spell :=
  repeat (apply acv_cons; [first [left; reflexivity | right; split; reflexivity]|]);
  apply acv_nil.

Ltac no_level_name :=
  let name := fresh "name" in
  let lvl := fresh "lvl" in
  let H := fresh "H" in
  intros name lvl H; unfold level_names in H; cbn [In] in H;
  repeat (destruct H as [H | H]; [injection H as <- <-; discriminate|]);
  contradiction.

(** Upper-casing is Unicode-aware: the dotless i (U+0131, in UTF-8 the bytes
    C4 B1) has the upper case I, so [strings.ToUpper] takes the five bytes
    below to "INFO".  Such an input spells no name in ASCII and is parsed as
    INFO all the same. *)
Definition dotless_info : string :=
  String (ascii_of_nat 196) (String (ascii_of_nat 177) "nfo").

Lemma level_names_inj n1 n2 lvl :
  In (n1, lvl) level_names -> In (n2, lvl) level_names -> n1 = n2.
Proof.
  unfold level_names. cbn [In]. intros H1 H2.
  repeat (destruct H1 as [H1 | H1]; [injection H1 as <- <-|]); try contradiction;
    repeat (destruct H2 as [H2 | H2];
            [injection H2; intros; subst;
             first [reflexivity
                   | match goal with E : _ = _ |- _ => cbv in E; discriminate E end]|]);
    contradiction.
Qed.

(** No name is a case variant of an ASCII string that upper-cases to
    something else. *)
Lemma not_unicode_case_variant_ascii (s : string) :
  strings.isASCII s = true ->
  (forall name lvl, In (name, lvl) level_names -> strings.upperASCII s <> name) ->
  forall name lvl, In (name, lvl) level_names -> ~ unicode_case_variant s name.
Proof.
  intros Ha Hne name lvl Hin Hv. apply (Hne name lvl Hin).
  apply (ascii_case_variant_upper _ _ (level_names_upper _ _ Hin)).
  apply unicode_case_variant_ascii; assumption.
Qed.

(** C1, as stated: the five bytes C4 B1 n f o are no spelling of a level
    name in upper-case and lower-case letters, and they are parsed as INFO,
    with no error, whatever the upper case of the other runes is. *)
Lemma ZapLogLevelFromString_dotless_i_is_info :
  (forall CaseRanges_upper,
      ZapLogLevelFromString (strings_Map (unicode.ToUpper CaseRanges_upper)) dotless_info
      = (InfoLevel, None))
  /\ strings.isASCII dotless_info = false
  /\ (forall name lvl,
        In (name, lvl) level_names -> ~ ascii_case_variant dotless_info name).
Proof.
  split; [|split].
  - intros CaseRanges_upper. vm_compute. reflexivity.
  - reflexivity.
  - intros name lvl Hin Hv.
    destruct (ascii_case_variant_upper _ _ (level_names_upper _ _ Hin) Hv) as [Ha _].
    discriminate Ha.
Qed.

(** C1, amended: with Go's upper-casing, where the dotless i (U+0131) has the
    upper case I and the long s (U+017F) the upper case S and no other rune
    above ASCII has an ASCII upper case, an input is parsed to the level of a
    name, with no error, exactly when it spells the name letter by letter,
    each letter in upper or lower case, an I also as the dotless i and an S
    also as the long s; every other input yields -1 and an error whose message
    contains the input string. *)
Theorem ZapLogLevelFromString_unicode_case_variants
    (CaseRanges_upper : Z -> Z) (logLevel : string) :
  (forall r, 127 < r -> r <> 305 -> r <> 383 -> 127 < CaseRanges_upper r) ->
  (forall name lvl,
      In (name, lvl) level_names ->
      (unicode_case_variant logLevel name
       <-> ZapLogLevelFromString (strings_Map (unicode.ToUpper CaseRanges_upper)) logLevel
           = (lvl, None)))
  /\ ((forall name lvl,
          In (name, lvl) level_names -> ~ unicode_case_variant logLevel name) ->
      ZapLogLevelFromString (strings_Map (unicode.ToUpper CaseRanges_upper)) logLevel
      = (-1, Some (unknown_log_level logLevel))
      /\ contains (unknown_log_level logLevel) logLevel).
Proof.
  intros Habove.
  pose proof (fun name lvl (Hin : In (name, lvl) level_names) =>
                ToUpper_unicode_case_variant CaseRanges_upper Habove logLevel name
                  (level_names_upper name lvl Hin)) as Hup.
  set (up := strings_Map (unicode.ToUpper CaseRanges_upper)) in *.
  split.
  - intros name lvl Hin. split.
    + intros Hv. apply ZapLogLevelFromString_known with (name := name); [exact Hin|].
      apply (Hup name lvl Hin), Hv.
    + intros Hr.
      destruct (ZapLogLevelFromString_cases up logLevel)
        as [(name' & lvl' & Hin' & Hu & Hr') | [_ Hr']];
        rewrite Hr' in Hr; [|discriminate Hr].
      injection Hr as ->.
      rewrite (level_names_inj _ _ _ Hin Hin'). apply (Hup name' lvl Hin'), Hu.
  - intros Hno. split; [|apply unknown_log_level_contains].
    apply ZapLogLevelFromString_unknown. intros name lvl Hin Hu.
    apply (Hno name lvl Hin), (Hup name lvl Hin), Hu.
Qed.

Ltac spell_unicode :=
  repeat first
    [ apply ucv_nil
    | apply ucv_dotless_i
    | apply ucv_letter; [first [left; reflexivity | right; split; reflexivity]|] ].

Lemma ZapLogLevelFromString_unicode_case_variants_witness :
  ZapLogLevelFromString (strings_Map (unicode.ToUpper (fun r => r))) "Debug"
  = (DebugLevel, None)
  /\ ZapLogLevelFromString (strings_Map (unicode.ToUpper (fun r => r))) dotless_info
     = (InfoLevel, None)
  /\ ZapLogLevelFromString (strings_Map (unicode.ToUpper (fun r => r))) "verbose"
     = (-1, Some (unknown_log_level "verbose"))
  /\ contains (unknown_log_level "verbose") "verbose".
Proof.
  assert (Habove : forall r : Z, 127 < r -> r <> 305 -> r <> 383 -> 127 < (fun r => r) r)
    by (intros r H _ _; exact H).
  split; [|split].
  - apply (proj1 (ZapLogLevelFromString_unicode_case_variants (fun r => r) "Debug" Habove)
             "DEBUG" DebugLevel).
    + left; reflexivity.
    + spell_unicode.
  - apply (proj1 (ZapLogLevelFromString_unicode_case_variants (fun r => r) dotless_info Habove)
             "INFO" InfoLevel).
    + right; left; reflexivity.
    + spell_unicode.
  - apply (proj2 (ZapLogLevelFromString_unicode_case_variants (fun r => r) "verbose" Habove)).
    apply not_unicode_case_variant_ascii; [reflexivity | no_level_name].
Defined.

Lemma ZapLogLevelFromString_dotless_i (up : string -> string) :
  up dotless_info = "INFO" ->
  case_variant up dotless_info "INFO"
  /\ ~ ascii_case_variant dotless_info "INFO"
  /\ ZapLogLevelFromString up dotless_info = (InfoLevel, None).
Proof.
  intros Hup. split; [|split].
  - right. split; [reflexivity | exact Hup].
  - intros Hv. inversion Hv as [|c u s name Hl Hr]; subst.
    destruct Hl as [Hl | [_ Hl]]; discriminate.
  - apply ZapLogLevelFromString_known with (name := "INFO").
    + right; left; reflexivity.
    + unfold strings.ToUpper. cbn. exact Hup.
Qed.

(** ** The order of the levels *)

Definition level_of (up : string -> string) (name : string) : Level :=
  fst (ZapLogLevelFromString up name).

(** A name is parsed to its own level. *)
Lemma level_of_in (up : string -> string) name lvl :
  In (name, lvl) level_names -> level_of up name = lvl.
Proof.
  intros Hin. unfold level_of.
  rewrite (ZapLogLevelFromString_known up name name lvl Hin); [reflexivity|].
  unfold level_names in Hin; cbn [In] in Hin.
  repeat (destruct Hin as [Hin | Hin]; [injection Hin as <- <-; reflexivity|]).
  contradiction.
Qed.

(** Every element is strictly below the next one. *)
Fixpoint increasing (l : list Level) : bool :=
  match l with
  | a :: (b :: _) as rest => (a <? b) && increasing rest
  | _ => true
  end.

(** C9, as stated: along DEBUG, INFO, WARNING, ERROR, FATAL, PANIC the parsed
    levels do not increase, since FATAL is parsed to 5 and PANIC to 4. *)
Lemma level_names_spec_order_not_increasing :
  increasing (map (level_of (fun s => s))
                ["DEBUG"; "INFO"; "WARNING"; "ERROR"; "FATAL"; "PANIC"]) = false
  /\ level_of (fun s => s) "FATAL" = 5
  /\ level_of (fun s => s) "PANIC" = 4.
Proof. repeat split. Qed.

(** C9, amended: the levels are ordered DEBUG < INFO < WARNING < ERROR < PANIC
    < FATAL, and the level parser maps each name of this list to a strictly
    smaller level than the next. *)
Theorem level_names_increasing (up : string -> string) :
  increasing (map (level_of up)
                ["DEBUG"; "INFO"; "WARNING"; "ERROR"; "PANIC"; "FATAL"]) = true
  /\ DebugLevel < InfoLevel < WarnLevel
  /\ WarnLevel < ErrorLevel < PanicLevel
  /\ PanicLevel < FatalLevel.
Proof.
  split; [|unfold DebugLevel, InfoLevel, WarnLevel, ErrorLevel, PanicLevel, FatalLevel; lia].
  cbn [map].
  rewrite (level_of_in up "DEBUG" DebugLevel), (level_of_in up "INFO" InfoLevel),
    (level_of_in up "WARNING" WarnLevel), (level_of_in up "ERROR" ErrorLevel),
    (level_of_in up "PANIC" PanicLevel), (level_of_in up "FATAL" FatalLevel);
    unfold level_names; cbn [In]; auto 10.
Qed.

(** C10: an input that matches none of the six names is answered with the
    level -1 and the error; -1 is [DebugLevel], a declared level and the one
    that enables every declared level. *)
Theorem ZapLogLevelFromString_unknown_is_debug (up : string -> string) (logLevel : string) :
  (forall name lvl, In (name, lvl) level_names -> ~ case_variant up logLevel name) ->
  ZapLogLevelFromString up logLevel = (-1, Some (unknown_log_level logLevel))
  /\ fst (ZapLogLevelFromString up logLevel) = DebugLevel
  /\ In (fst (ZapLogLevelFromString up logLevel)) declared_levels
  /\ (forall lvl, In lvl declared_levels ->
        Level_Enabled (fst (ZapLogLevelFromString up logLevel)) lvl = true).
Proof.
  intros Hno.
  assert (E : ZapLogLevelFromString up logLevel = (-1, Some (unknown_log_level logLevel))).
  { apply ZapLogLevelFromString_unknown. intros name lvl Hin Hu.
    apply (Hno name lvl Hin).
    apply case_variant_ToUpper; [eapply level_names_upper, Hin | exact Hu]. }
  rewrite E. cbn [fst]. repeat split.
  - left; reflexivity.
  - intros lvl Hin. unfold declared_levels in Hin. cbn [In] in Hin.
    repeat (destruct Hin as [<- | Hin]; [reflexivity|]). contradiction.
Qed.

Lemma ZapLogLevelFromString_unknown_is_debug_witness :
  ZapLogLevelFromString (fun s => s) "verbose" = (-1, Some "unknown log level: verbose")
  /\ fst (ZapLogLevelFromString (fun s => s) "verbose") = DebugLevel
  /\ In (fst (ZapLogLevelFromString (fun s => s) "verbose")) declared_levels
  /\ (forall lvl, In lvl declared_levels ->
        Level_Enabled (fst (ZapLogLevelFromString (fun s => s) "verbose")) lvl = true).
Proof.
  apply (ZapLogLevelFromString_unknown_is_debug (fun s => s) "verbose").
  apply not_case_variant_ascii; [reflexivity | no_level_name].
Defined.

(** ** Construction *)

(** The Base Fields as [attachBaseFields] computes them. *)
Definition base_fields (env : Env) : list Field :=
  [ mkField "hostname" StringType 0
      (match snd (os_Hostname env) with Some _ => "unknown" | None => fst (os_Hostname env) end);
    mkField "pid" Int64Type (int64 (os_Getpid env)) "" ].

(** The events of a failed open: the cleanup function, when there is one,
    then the message of [log.Fatalf]. *)
Definition open_failure_events (r : OpenResult) (e : error) : list Event :=
  (match closer r with Some names => [closed names] | None => [] end
   ++ [logged ("could not open log file: " ++ e ++ String (ascii_of_nat 10) EmptyString)])%list.

Lemma attachBaseFields_run core env tr :
  attachBaseFields core env tr = (Returned (Core_With core (base_fields env)), tr).
Proof. reflexivity. Qed.

Lemma newZapOutputLogger_run prettyLogging level env tr :
  newZapOutputLogger prettyLogging level env tr =
  (Returned (ioCore (if prettyLogging then zapConsoleEncoder else ZapJsonEncoder)
               Stdout level (if prettyLogging then [] else base_fields env)), tr).
Proof. destruct prettyLogging; reflexivity. Qed.

Lemma newZapFileLogger_opened file level env tr :
  err (zap_Open env file) = None ->
  newZapFileLogger file level env tr =
  (Returned (ioCore ZapJsonEncoder (opened (zap_Open env file)) level (base_fields env)), tr).
Proof.
  intros He. unfold newZapFileLogger, bind, ask, when. rewrite He. reflexivity.
Qed.

Lemma newZapFileLogger_failed file level env tr e :
  err (zap_Open env file) = Some e ->
  newZapFileLogger file level env tr =
  (Exited 1, (tr ++ open_failure_events (zap_Open env file) e)%list).
Proof.
  intros He. unfold newZapFileLogger, open_failure_events, bind, ask, when.
  rewrite He. destruct (closer (zap_Open env file)) as [names|]; cbn.
  - rewrite <- app_assoc. reflexivity.
  - reflexivity.
Qed.

Lemma New_console_only prettyLogging debug levelOutput fileLevel env :
  run (New prettyLogging debug levelOutput "" fileLevel) env =
  (Returned (newZapLogger debug
     [ioCore (if prettyLogging then zapConsoleEncoder else ZapJsonEncoder)
        Stdout levelOutput (if prettyLogging then [] else base_fields env)]), []).
Proof.
  unfold run, New, bind. rewrite newZapOutputLogger_run. reflexivity.
Qed.

Lemma fileOutput_nonempty (fileOutput : string) :
  fileOutput <> "" -> negb (fileOutput =? "")%string = true.
Proof.
  intros H. destruct (String.eqb_spec fileOutput ""); [contradiction|reflexivity].
Qed.

Lemma New_with_file prettyLogging debug levelOutput fileOutput fileLevel env :
  fileOutput <> "" -> err (zap_Open env fileOutput) = None ->
  run (New prettyLogging debug levelOutput fileOutput fileLevel) env =
  (Returned (newZapLogger debug
     [ioCore (if prettyLogging then zapConsoleEncoder else ZapJsonEncoder)
        Stdout levelOutput (if prettyLogging then [] else base_fields env);
      ioCore ZapJsonEncoder (opened (zap_Open env fileOutput)) fileLevel (base_fields env)]),
   []).
Proof.
  intros Hne He. unfold run, New, bind.
  rewrite newZapOutputLogger_run, (fileOutput_nonempty _ Hne),
    (newZapFileLogger_opened _ _ _ _ He).
  reflexivity.
Qed.

Lemma New_open_failed prettyLogging debug levelOutput fileOutput fileLevel env e :
  fileOutput <> "" -> err (zap_Open env fileOutput) = Some e ->
  run (New prettyLogging debug levelOutput fileOutput fileLevel) env =
  (Exited 1, open_failure_events (zap_Open env fileOutput) e).
Proof.
  intros Hne He. unfold run, New, bind.
  rewrite newZapOutputLogger_run, (fileOutput_nonempty _ Hne),
    (newZapFileLogger_failed _ _ _ _ _ He).
  reflexivity.
Qed.

(** The logger [newZapLogger] builds: the tee of the cores, the caller added
    in debug mode, stack traces from [ErrorLevel] up. *)
Lemma newZapLogger_eq debug cores :
  newZapLogger debug cores = zap.mkLogger (NewTee cores) debug ErrorLevel.
Proof. destruct debug; reflexivity. Qed.

(** Every way [New] can end. *)
Lemma New_outcomes prettyLogging debug levelOutput fileOutput fileLevel env logger tr :
  run (New prettyLogging debug levelOutput fileOutput fileLevel) env = (Returned logger, tr) ->
  let console := ioCore (if prettyLogging then zapConsoleEncoder else ZapJsonEncoder)
                   Stdout levelOutput (if prettyLogging then [] else base_fields env) in
  let file := ioCore ZapJsonEncoder (opened (zap_Open env fileOutput)) fileLevel
                (base_fields env) in
  (fileOutput = "" /\ logger = zap.mkLogger console debug ErrorLevel)
  \/ (fileOutput <> "" /\ err (zap_Open env fileOutput) = None
      /\ logger = zap.mkLogger (multiCore [console; file]) debug ErrorLevel).
Proof.
  intros Hrun. cbv zeta.
  destruct (String.eqb_spec fileOutput "") as [-> | Hne].
  - left. rewrite New_console_only, newZapLogger_eq in Hrun.
    injection Hrun as <- _. split; reflexivity.
  - right. destruct (err (zap_Open env fileOutput)) as [e|] eqn:He.
    + rewrite (New_open_failed _ _ _ _ _ _ _ Hne He) in Hrun. discriminate.
    + rewrite (New_with_file _ _ _ _ _ _ Hne He), newZapLogger_eq in Hrun.
      injection Hrun as <- _. repeat split; assumption.
Qed.

(** ** Records written through a logger *)

Section Core_induction.

Variable P : Core -> Prop.
Hypothesis P_nop : P nopCore.
Hypothesis P_io : forall enc out level context, P (ioCore enc out level context).
Hypothesis P_multi : forall cores, Forall P cores -> P (multiCore cores).

Fixpoint Core_induction (c : Core) : P c :=
  match c with
  | nopCore => P_nop
  | ioCore enc out level context => P_io enc out level context
  | multiCore cores =>
      P_multi cores
        ((fix all (l : list Core) : Forall P l :=
            match l with
            | [] => Forall_nil P
            | c' :: l' => Forall_cons c' (Core_induction c') (all l')
            end) cores)
  end.

End Core_induction.

(** [Check] adds sinks of the core, and only those whose level enables the
    entry's level. *)
Lemma Core_Check_sinks c ent c' :
  In c' (Core_Check c ent) ->
  In c' (sinks c)
  /\ exists enc out level context,
       c' = ioCore enc out level context /\ Level_Enabled level (Level_ ent) = true.
Proof.
  revert c'. induction c as [| enc out level context | cores IH] using Core_induction;
    intros c' Hin.
  - contradiction.
  - cbn in Hin. destruct (Level_Enabled level (Level_ ent)) eqn:He; [|contradiction].
    destruct Hin as [<- | []]. split; [left; reflexivity|].
    exists enc, out, level, context. split; [reflexivity | exact He].
  - cbn [Core_Check sinks] in *. apply in_flat_map in Hin as [c0 [Hc0 Hin]].
    rewrite Forall_forall in IH. destruct (IH c0 Hc0 c' Hin) as [Hs Hio].
    split; [|exact Hio]. apply in_flat_map. exists c0. split; assumption.
Qed.

(** The entry [zap.check] hands to the cores. *)
Definition checked_entry (l : zap.Logger) (call : zap.Call) (lvl : Level) (msg : string)
  : Entry :=
  let stack := Level_Enabled (zap.addStack l) lvl in
  match zap.frames call with
  | [] => mkEntry lvl (zap.now call) msg None EmptyString
  | frame :: _ =>
      mkEntry lvl (zap.now call) msg
        (if zap.addCaller l then Some frame else None)
        (if stack then zap.Stacktrace (zap.frames call) else EmptyString)
  end.

Lemma check_entry l call lvl msg ent cores :
  zap.check l call lvl msg = Some (ent, cores) ->
  ent = checked_entry l call lvl msg
  /\ cores = Core_Check (zap.core l) (mkEntry lvl (zap.now call) msg None EmptyString).
Proof.
  unfold zap.check, checked_entry.
  destruct ((lvl <? DPanicLevel) && negb (zap.Core_Enabled (zap.core l) lvl)); [discriminate|].
  destruct (Core_Check (zap.core l) _) as [|c0 cs]; [discriminate|].
  destruct (zap.addCaller l), (Level_Enabled (zap.addStack l) lvl),
    (zap.frames call) as [|frame more]; cbn;
    intros H; injection H as <- <-; split; reflexivity.
Qed.

(** A record written by a logging call comes from a sink of the logger's
    core whose level enables the call's level; it carries the checked entry
    and the sink's fields followed by the call's. *)
Lemma log_written l call lvl msg fs w :
  In w (zap.log l call lvl msg fs) ->
  exists enc out level context,
    In (ioCore enc out level context) (sinks (zap.core l))
    /\ Level_Enabled level lvl = true
    /\ w = mkWritten out enc (checked_entry l call lvl msg) (context ++ fs).
Proof.
  unfold zap.log. destruct (zap.check l call lvl msg) as [[ent cores]|] eqn:Hc;
    [|contradiction].
  apply check_entry in Hc as [-> ->]. intros Hin.
  apply in_flat_map in Hin as [c [Hc Hw]].
  apply Core_Check_sinks in Hc as [Hs (enc & out & level & context & -> & He)].
  exists enc, out, level, context. cbn in Hw. destruct Hw as [<- | []].
  repeat split; assumption.
Qed.

(** Conversely, a sink whose level enables the call's level writes. *)
Lemma Core_Check_enabled c ent enc out level context :
  In (ioCore enc out level context) (sinks c) ->
  Level_Enabled level (Level_ ent) = true ->
  In (ioCore enc out level context) (Core_Check c ent).
Proof.
  induction c as [| enc0 out0 level0 context0 | cores IH] using Core_induction;
    intros Hin He.
  - contradiction.
  - cbn in Hin. destruct Hin as [E | []]. injection E as -> -> -> ->.
    cbn. rewrite He. left; reflexivity.
  - cbn [Core_Check sinks] in *. apply in_flat_map in Hin as [c0 [Hc0 Hin]].
    rewrite Forall_forall in IH. apply in_flat_map. exists c0.
    split; [exact Hc0 | exact (IH c0 Hc0 Hin He)].
Qed.

Lemma Core_Enabled_sinks c lvl enc out level context :
  In (ioCore enc out level context) (sinks c) ->
  Level_Enabled level lvl = true ->
  zap.Core_Enabled c lvl = true.
Proof.
  induction c as [| enc0 out0 level0 context0 | cores IH] using Core_induction;
    intros Hin He.
  - contradiction.
  - cbn in Hin. destruct Hin as [E | []]. injection E as -> -> -> ->. exact He.
  - cbn [zap.Core_Enabled sinks] in *. apply in_flat_map in Hin as [c0 [Hc0 Hin]].
    rewrite Forall_forall in IH. apply existsb_exists. exists c0.
    split; [exact Hc0 | exact (IH c0 Hc0 Hin He)].
Qed.

Lemma log_writes l call lvl msg fs enc out level context :
  In (ioCore enc out level context) (sinks (zap.core l)) ->
  Level_Enabled level lvl = true ->
  In (mkWritten out enc (checked_entry l call lvl msg) (context ++ fs))
     (zap.log l call lvl msg fs).
Proof.
  intros Hin He.
  pose proof (Core_Check_enabled (zap.core l)
                (mkEntry lvl (zap.now call) msg None EmptyString) _ _ _ _ Hin He) as Hc.
  unfold zap.log.
  destruct (zap.check l call lvl msg) as [[ent cores]|] eqn:Hk.
  - apply check_entry in Hk as [-> ->]. apply in_flat_map.
    exists (ioCore enc out level context). split; [exact Hc | left; reflexivity].
  - exfalso. unfold zap.check in Hk.
    rewrite (Core_Enabled_sinks _ _ _ _ _ _ Hin He), andb_false_r in Hk.
    destruct (Core_Check (zap.core l) _) as [|c0 cs]; [contradiction|].
    destruct (negb (zap.addCaller l) && negb (Level_Enabled (zap.addStack l) lvl));
      [discriminate|].
    destruct (zap.frames call); discriminate.
Qed.

(** ** The factory *)

Definition console_sink (prettyLogging : bool) (levelOutput : Level) (env : Env) : Core :=
  ioCore (if prettyLogging then zapConsoleEncoder else ZapJsonEncoder)
    Stdout levelOutput (if prettyLogging then [] else base_fields env).

Definition file_sink (fileOutput : string) (fileLevel : Level) (env : Env) : Core :=
  ioCore ZapJsonEncoder (opened (zap_Open env fileOutput)) fileLevel (base_fields env).

(** C2: when the file cannot be opened, the sink builder and the factory end
    the process with exit code 1 and return no logger; before that the
    cleanup function is called if [zap.Open] handed one back, and the error
    is printed. *)
Theorem New_open_failure_is_fatal
    (prettyLogging debug : bool) (levelOutput fileLevel : Level)
    (fileOutput : string) (env : Env) (e : error) :
  fileOutput <> "" ->
  err (zap_Open env fileOutput) = Some e ->
  let report := logged ("could not open log file: " ++ e ++ String (ascii_of_nat 10) EmptyString) in
  let closing := match closer (zap_Open env fileOutput) with
                 | Some names => [closed names]
                 | None => []
                 end in
  run (newZapFileLogger fileOutput fileLevel) env = (Exited 1, (closing ++ [report])%list)
  /\ run (New prettyLogging debug levelOutput fileOutput fileLevel) env
     = (Exited 1, (closing ++ [report])%list)
  /\ forall logger tr,
       run (New prettyLogging debug levelOutput fileOutput fileLevel) env
       <> (Returned logger, tr).
Proof.
  intros Hne He report closing.
  assert (HN := New_open_failed prettyLogging debug levelOutput fileOutput fileLevel env e Hne He).
  repeat split.
  - unfold run. rewrite (newZapFileLogger_failed _ _ _ _ _ He). reflexivity.
  - exact HN.
  - intros logger tr H. rewrite HN in H. discriminate.
Qed.

Definition unwritable_env : Env :=
  mkEnv ("router-0", None) 4711
    (fun _ => mkOpenResult nilWriteSyncer (Some ["/var/log/router.log"])
                (Some "open /var/log/router.log: permission denied")).

Lemma New_open_failure_is_fatal_witness :
  run (newZapFileLogger "/var/log/router.log" InfoLevel) unwritable_env
  = (Exited 1,
     [closed ["/var/log/router.log"];
      logged ("could not open log file: open /var/log/router.log: permission denied"
              ++ String (ascii_of_nat 10) EmptyString)])
  /\ run (New false false InfoLevel "/var/log/router.log" InfoLevel) unwritable_env
     = (Exited 1,
        [closed ["/var/log/router.log"];
         logged ("could not open log file: open /var/log/router.log: permission denied"
                 ++ String (ascii_of_nat 10) EmptyString)])
  /\ forall logger tr,
       run (New false false InfoLevel "/var/log/router.log" InfoLevel) unwritable_env
       <> (Returned logger, tr).
Proof.
  apply (New_open_failure_is_fatal false false InfoLevel InfoLevel
           "/var/log/router.log" unwritable_env
           "open /var/log/router.log: permission denied").
  - discriminate.
  - reflexivity.
Defined.

(** C3: with an empty [fileOutput] the factory returns a logger with exactly
    one sink, the console sink; with a non-empty one whose file opens it
    returns a logger with exactly two sinks, console and file; and whenever
    it returns a logger, the number of sinks is one or two accordingly. *)
Theorem New_sinks
    (prettyLogging debug : bool) (levelOutput fileLevel : Level)
    (fileOutput : string) (env : Env) :
  (exists logger,
      run (New prettyLogging debug levelOutput "" fileLevel) env = (Returned logger, [])
      /\ sinks (zap.core logger) = [console_sink prettyLogging levelOutput env])
  /\ (fileOutput <> "" -> err (zap_Open env fileOutput) = None ->
      exists logger,
        run (New prettyLogging debug levelOutput fileOutput fileLevel) env
        = (Returned logger, [])
        /\ sinks (zap.core logger)
           = [console_sink prettyLogging levelOutput env;
              file_sink fileOutput fileLevel env])
  /\ (forall logger tr,
        run (New prettyLogging debug levelOutput fileOutput fileLevel) env
        = (Returned logger, tr) ->
        List.length (sinks (zap.core logger))
        = if (fileOutput =? "")%string then 1%nat else 2%nat).
Proof.
  repeat split.
  - eexists. split; [apply New_console_only|]. rewrite newZapLogger_eq. reflexivity.
  - intros Hne He. eexists. split; [apply New_with_file; assumption|].
    rewrite newZapLogger_eq. reflexivity.
  - intros logger tr Hrun.
    destruct (New_outcomes _ _ _ _ _ _ _ _ Hrun) as [[-> ->] | (Hne & _ & ->)].
    + reflexivity.
    + destruct (String.eqb_spec fileOutput ""); [contradiction|reflexivity].
Qed.

Definition writable_env : Env :=
  mkEnv ("router-0", None) 4711
    (fun path => mkOpenResult (Sink path) (Some [path]) None).

Lemma New_sinks_witness :
  (exists logger,
      run (New true false InfoLevel "router.log" DebugLevel) writable_env
      = (Returned logger, [])
      /\ sinks (zap.core logger)
         = [console_sink true InfoLevel writable_env;
            file_sink "router.log" DebugLevel writable_env])
  /\ List.length (sinks (zap.core
       (newZapLogger false [console_sink true InfoLevel writable_env]))) = 1%nat.
Proof.
  split.
  - apply (proj1 (proj2 (New_sinks true false InfoLevel DebugLevel "router.log" writable_env))).
    + discriminate.
    + reflexivity.
  - apply (proj2 (proj2 (New_sinks true false InfoLevel DebugLevel "" writable_env))
             _ []).
    reflexivity.
Defined.

(** C5: the console sink carries the Base Fields exactly when its encoder is
    JSON.  Built with [prettyLogging = false] it is JSON-encoded and every
    record it writes has hostname and pid before the fields of the call;
    built with [prettyLogging = true] it is console-encoded and every record
    it writes has the fields of the call and no others.  The same holds of
    every sink of a logger the factory returns. *)
Theorem base_fields_iff_JSON
    (prettyLogging debug : bool) (levelOutput fileLevel : Level)
    (fileOutput : string) (env : Env) :
  (exists enc context,
      run (newZapOutputLogger prettyLogging levelOutput) env
      = (Returned (ioCore enc Stdout levelOutput context), [])
      /\ isJSON enc = negb prettyLogging
      /\ context = (if isJSON enc then base_fields env else [])
      /\ forall ent fs w,
           In w (Core_Write (ioCore enc Stdout levelOutput context) ent fs) ->
           fields w = (if prettyLogging then fs else base_fields env ++ fs)%list
           /\ (prettyLogging = false ->
               has_field "hostname" w = true /\ has_field "pid" w = true))
  /\ map Key (base_fields env) = ["hostname"; "pid"]
  /\ (forall logger tr,
        run (New prettyLogging debug levelOutput fileOutput fileLevel) env
        = (Returned logger, tr) ->
        (forall enc out level context,
            In (ioCore enc out level context) (sinks (zap.core logger)) ->
            context = if isJSON enc then base_fields env else [])
        /\ (forall call lvl msg fs w,
              In w (zap.log logger call lvl msg fs) ->
              fields w = (if isJSON (by_ w) then base_fields env ++ fs else fs)%list)).
Proof.
  assert (Hsinks : forall logger tr,
             run (New prettyLogging debug levelOutput fileOutput fileLevel) env
             = (Returned logger, tr) ->
             forall enc out level context,
               In (ioCore enc out level context) (sinks (zap.core logger)) ->
               context = if isJSON enc then base_fields env else []).
  { intros logger tr Hrun enc out level context Hin.
    destruct (New_outcomes _ _ _ _ _ _ _ _ Hrun) as [[_ ->] | (_ & _ & ->)];
      cbn in Hin; destruct prettyLogging;
      repeat (destruct Hin as [Hin | Hin]; [injection Hin as <- <- <- <-; reflexivity|]);
      contradiction. }
  split; [|split; [reflexivity|]].
  - exists (if prettyLogging then zapConsoleEncoder else ZapJsonEncoder),
      (if prettyLogging then [] else base_fields env).
    unfold run. rewrite newZapOutputLogger_run.
    destruct prettyLogging; (split; [reflexivity|]); (split; [reflexivity|]);
      (split; [reflexivity|]); intros ent fs w [<- | []];
      (split; [reflexivity|]); intros Hp; [discriminate | split; reflexivity].
  - intros logger tr Hrun. split.
    + exact (Hsinks logger tr Hrun).
    + intros call lvl msg fs w Hw.
      apply log_written in Hw as (enc & out & level & context & Hin & _ & ->).
      cbn [fields by_]. rewrite (Hsinks _ _ Hrun _ _ _ _ Hin).
      destruct (isJSON enc); reflexivity.
Qed.

Lemma base_fields_iff_JSON_witness :
  (forall enc out level context,
      In (ioCore enc out level context)
         (sinks (zap.core (newZapLogger false
            [console_sink true InfoLevel writable_env;
             file_sink "router.log" DebugLevel writable_env]))) ->
      context = if isJSON enc then base_fields writable_env else [])
  /\ (forall call lvl msg fs w,
        In w (zap.log (newZapLogger false
                [console_sink true InfoLevel writable_env;
                 file_sink "router.log" DebugLevel writable_env]) call lvl msg fs) ->
        fields w = (if isJSON (by_ w) then base_fields writable_env ++ fs else fs)%list).
Proof.
  apply (proj2 (proj2 (base_fields_iff_JSON true false InfoLevel DebugLevel
                         "router.log" writable_env)) _ []).
  reflexivity.
Defined.

(** C6: for a non-empty [fileOutput] whose file opens, whatever
    [prettyLogging] is, the second sink of the returned logger is the file
    sink: JSON-encoded, at [fileLevel], writing to the opened file, with
    hostname and pid attached to every record it writes. *)
Theorem New_file_sink
    (prettyLogging debug : bool) (levelOutput fileLevel : Level)
    (fileOutput : string) (env : Env) :
  fileOutput <> "" ->
  err (zap_Open env fileOutput) = None ->
  run (newZapFileLogger fileOutput fileLevel) env
  = (Returned (ioCore ZapJsonEncoder (opened (zap_Open env fileOutput)) fileLevel
                 (base_fields env)), [])
  /\ isJSON ZapJsonEncoder = true
  /\ map Key (base_fields env) = ["hostname"; "pid"]
  /\ (exists logger console,
        run (New prettyLogging debug levelOutput fileOutput fileLevel) env
        = (Returned logger, [])
        /\ sinks (zap.core logger)
           = [console;
              ioCore ZapJsonEncoder (opened (zap_Open env fileOutput)) fileLevel
                (base_fields env)])
  /\ (forall ent fs w,
        In w (Core_Write (file_sink fileOutput fileLevel env) ent fs) ->
        to w = opened (zap_Open env fileOutput)
        /\ by_ w = ZapJsonEncoder
        /\ fields w = (base_fields env ++ fs)%list).
Proof.
  intros Hne He.
  split; [unfold run; apply newZapFileLogger_opened, He|].
  split; [reflexivity|]. split; [reflexivity|]. split.
  - eexists. eexists. split; [apply New_with_file; assumption|].
    rewrite newZapLogger_eq. reflexivity.
  - intros ent fs w [<- | []]. repeat split.
Qed.

Lemma New_file_sink_witness :
  run (newZapFileLogger "router.log" WarnLevel) writable_env
  = (Returned (ioCore ZapJsonEncoder (Sink "router.log") WarnLevel
                 (base_fields writable_env)), [])
  /\ isJSON ZapJsonEncoder = true
  /\ map Key (base_fields writable_env) = ["hostname"; "pid"]
  /\ (exists logger console,
        run (New true true DebugLevel "router.log" WarnLevel) writable_env
        = (Returned logger, [])
        /\ sinks (zap.core logger)
           = [console;
              ioCore ZapJsonEncoder (Sink "router.log") WarnLevel
                (base_fields writable_env)])
  /\ (forall ent fs w,
        In w (Core_Write (file_sink "router.log" WarnLevel writable_env) ent fs) ->
        to w = Sink "router.log"
        /\ by_ w = ZapJsonEncoder
        /\ fields w = (base_fields writable_env ++ fs)%list).
Proof.
  apply (New_file_sink true true DebugLevel WarnLevel "router.log" writable_env).
  - discriminate.
  - reflexivity.
Defined.

(** ** Stack traces *)

Lemma append_nonempty (a b : string) (c : ascii) :
  (a ++ String c b)%string <> EmptyString.
Proof. destruct a; discriminate. Qed.

Lemma FormatFrame_nonempty f : zap.FormatFrame f <> EmptyString.
Proof. unfold zap.FormatFrame. apply append_nonempty. Qed.

Lemma FormatFrames_nonempty fs : fs <> [] -> zap.FormatFrames fs <> EmptyString.
Proof.
  destruct fs as [|f [|g fs']]; intros H.
  - contradiction.
  - apply FormatFrame_nonempty.
  - cbn [zap.FormatFrames]. apply append_nonempty.
Qed.

Lemma Stacktrace_nonempty fs : fs <> [] -> zap.Stacktrace fs <> EmptyString.
Proof.
  destruct fs as [|frame more]; intros H; [contradiction|].
  apply FormatFrames_nonempty. discriminate.
Qed.

(** C7: in every logger the factory returns, whatever [debug] is, a record
    written for a call at [ErrorLevel] or above carries the formatted call
    stack, which is not empty, under the key "stacktrace"; a record written
    for a call below [ErrorLevel] carries no stack trace. *)
Theorem stacktrace_from_ErrorLevel
    (prettyLogging debug : bool) (levelOutput fileLevel : Level)
    (fileOutput : string) (env : Env) (logger : zap.Logger) (tr : list Event)
    (call : zap.Call) (lvl : Level) (msg : string) (fs : list Field) (w : Written) :
  run (New prettyLogging debug levelOutput fileOutput fileLevel) env = (Returned logger, tr) ->
  zap.frames call <> [] ->
  In w (zap.log logger call lvl msg fs) ->
  (ErrorLevel <= lvl ->
     stacktrace_member w = Some ("stacktrace", zap.Stacktrace (zap.frames call))
     /\ Stack (entry w) <> EmptyString)
  /\ (lvl < ErrorLevel ->
     stacktrace_member w = None /\ Stack (entry w) = EmptyString).
Proof.
  intros Hrun Hframes Hw.
  apply log_written in Hw as (enc & out & level & context & Hin & _ & ->).
  assert (Hkey : StacktraceKey (Encoder_config enc) = "stacktrace").
  { destruct (New_outcomes _ _ _ _ _ _ _ _ Hrun) as [[_ ->] | (_ & _ & ->)];
      cbn in Hin; destruct prettyLogging;
      repeat (destruct Hin as [Hin | Hin]; [injection Hin as <- _ _ _; reflexivity|]);
      contradiction. }
  assert (Hstack : zap.addStack logger = ErrorLevel).
  { destruct (New_outcomes _ _ _ _ _ _ _ _ Hrun) as [[_ ->] | (_ & _ & ->)]; reflexivity. }
  pose proof (Stacktrace_nonempty _ Hframes) as Hne.
  unfold stacktrace_member, checked_entry. cbn [entry by_]. rewrite Hkey, Hstack.
  destruct (zap.frames call) as [|frame more] eqn:Hf; [contradiction|].
  cbn [Stack]. unfold Level_Enabled. split; intros Hl.
  - replace (ErrorLevel <=? lvl) with true by (symmetry; apply Z.leb_le; exact Hl).
    destruct (String.eqb_spec (zap.Stacktrace (frame :: more)) ""); [contradiction|].
    split; [reflexivity | assumption].
  - replace (ErrorLevel <=? lvl) with false by (symmetry; apply Z.leb_gt; exact Hl).
    split; reflexivity.
Qed.

Definition handler_frame : Frame :=
  mkFrame "github.com/wundergraph/cosmo/router/core.(*Router).Start"
    "router/core/router.go" 1042.

Definition main_frame : Frame := mkFrame "main.main" "router/cmd/router/main.go" 31.

Definition runtime_main : Frame := mkFrame "runtime.main" "runtime/proc.go" 271.

(** A call from [Start], itself called from [main.main]; the last frame the
    runtime reports is [runtime.main]. *)
Definition error_call : zap.Call :=
  zap.mkCall (time.mkTime 1700000000 0 0) [handler_frame; main_frame; runtime_main].

Definition error_record : Written :=
  mkWritten Stdout ZapJsonEncoder
    (mkEntry ErrorLevel (time.mkTime 1700000000 0 0) "listen failed" None
       (zap.FormatFrames [handler_frame; main_frame]))
    (base_fields writable_env ++ [WithRequestID "r-1"]).

Lemma stacktrace_from_ErrorLevel_witness :
  (ErrorLevel <= ErrorLevel ->
     stacktrace_member error_record
     = Some ("stacktrace", zap.Stacktrace (zap.frames error_call))
     /\ Stack (entry error_record) <> EmptyString)
  /\ (ErrorLevel < ErrorLevel ->
     stacktrace_member error_record = None /\ Stack (entry error_record) = EmptyString).
Proof.
  apply (stacktrace_from_ErrorLevel false false InfoLevel InfoLevel "" writable_env
           (newZapLogger false [console_sink false InfoLevel writable_env]) []
           error_call ErrorLevel "listen failed" [WithRequestID "r-1"] error_record).
  - reflexivity.
  - discriminate.
  - left; reflexivity.
Defined.

(** ** Timestamps *)

(** A record written by a JSON-encoded sink of this package at time [t]. *)
Definition json_record (t : time.Time) : Written :=
  mkWritten Stdout ZapJsonEncoder (mkEntry InfoLevel t "ready" None EmptyString) [].

(** The JSON encoder writes the time under the key "time", as an [int64]. *)
Lemma ZapJsonEncoder_time_member t :
  time_member (json_record t)
  = Some ("time",
          Some (AppendInt64
                  (float64.to_int64
                     (float64.Trunc
                        (PrimFloat.div (float64.of_int64 (time.UnixNano t))
                           (float64.of_int64 time.Millisecond)))))).
Proof. reflexivity. Qed.

(** 2023-11-14 22:13:20.000999999 UTC, one nanosecond before the next
    millisecond. *)
Definition before_millisecond : time.Time := time.mkTime 1700000000 999999 0.

(** C4, at one source time: the record's "time" member is 1700000000001,
    while the nanoseconds since the epoch, 1700000000000999999, divided by
    1000000 and rounded down are 1700000000000. *)
Theorem ZapJsonEncoder_time_before_millisecond :
  time.UnixNano before_millisecond = 1700000000000999999
  /\ time_member (json_record before_millisecond)
     = Some ("time", Some (AppendInt64 1700000000001))
  /\ time.UnixNano before_millisecond / 1000000 = 1700000000000.
Proof. vm_compute. repeat split. Qed.

(** Where the quotient is far from a millisecond boundary the member is the
    floor. *)
Example ZapJsonEncoder_time_mid_millisecond :
  time_member (json_record (time.mkTime 1700000000 123456789 0))
  = Some ("time", Some (AppendInt64 (1700000000123456789 / 1000000))).
Proof. vm_compute. reflexivity. Qed.

(** ** The console encoder *)

Lemma Clock_range t :
  let '(hour, min, sec) := time.Clock t in
  0 <= hour < 24 /\ 0 <= min < 60 /\ 0 <= sec < 60.
Proof.
  unfold time.Clock.
  set (s := (time.unixSec t + time.zoneOffset t) mod 86400).
  assert (Hs : 0 <= s < 86400) by (apply Z.mod_pos_bound; lia).
  set (h := s / 3600).
  assert (Hh : 0 <= h < 24).
  { unfold h. split; [apply Z.div_pos; lia | apply Z.div_lt_upper_bound; lia]. }
  assert (Hr : 0 <= s - h * 3600 < 3600).
  { unfold h. pose proof (Z.mod_pos_bound s 3600 ltac:(lia)).
    pose proof (Z.div_mod s 3600 ltac:(lia)). lia. }
  set (r := s - h * 3600) in *.
  assert (Hm : 0 <= r / 60 < 60).
  { split; [apply Z.div_pos; lia | apply Z.div_lt_upper_bound; lia]. }
  pose proof (Z.mod_pos_bound r 60 ltac:(lia)).
  pose proof (Z.div_mod r 60 ltac:(lia)). lia.
Qed.

(** What the layout ["03:04:05 PM"] of the 12-hour clock renders. *)
Definition kitchen12 (t : time.Time) : string :=
  let '(hour, min, sec) := time.Clock t in
  (time.appendInt (time.hour12 hour) 2 ++ ":" ++ time.appendInt min 2 ++ ":"
     ++ time.appendInt sec 2 ++ " " ++ (if (12 <=? hour)%Z then "PM" else "AM"))%string.

Lemma Format_kitchen12 t : time.Format t "03:04:05 PM" = Some (kitchen12 t).
Proof.
  unfold time.Format, kitchen12.
  change (time.chunks "03:04:05 PM") with
    [time.stdZeroHour12; time.literal ":"; time.stdZeroMinute; time.literal ":";
     time.stdZeroSecond; time.literal " "; time.stdPM].
  unfold time.appendChunks, time.appendChunk.
  destruct (time.Clock t) as [[hour min] sec]. destruct (12 <=? hour); reflexivity.
Qed.

(** The console encoder separates with one space, and renders the time of
    day as the hour of the 24-hour clock, minute and second, two digits
    each, followed by AM or PM. *)
Lemma zapConsoleEncoder_time t :
  ConsoleSeparator (Encoder_config zapConsoleEncoder) = " "
  /\ EncodeTime (Encoder_config zapConsoleEncoder) t
     = let '(hour, min, sec) := time.Clock t in
       Some (AppendString
               (time.appendInt hour 2 ++ ":" ++ time.appendInt min 2 ++ ":"
                  ++ time.appendInt sec 2 ++ " "
                  ++ (if (12 <=? hour)%Z then "PM" else "AM"))%string).
Proof.
  split; [reflexivity|].
  change (EncodeTime (Encoder_config zapConsoleEncoder) t)
    with (option_map AppendString (time.Format t "15:04:05 PM")).
  unfold time.Format.
  change (time.chunks "15:04:05 PM") with
    [time.stdHour; time.literal ":"; time.stdZeroMinute; time.literal ":";
     time.stdZeroSecond; time.literal " "; time.stdPM].
  unfold time.appendChunks, time.appendChunk.
  destruct (time.Clock t) as [[hour min] sec]. destruct (12 <=? hour); reflexivity.
Qed.

(** The rendering is that of the 12-hour clock exactly from 01:00:00 to
    12:59:59; in the hour after midnight and from 13:00:00 on the hour
    differs. *)
Lemma zapConsoleEncoder_time_12h t :
  EncodeTime (Encoder_config zapConsoleEncoder) t = Some (AppendString (kitchen12 t))
  <-> 1 <= fst (fst (time.Clock t)) <= 12.
Proof.
  destruct (zapConsoleEncoder_time t) as [_ ->]. unfold kitchen12.
  pose proof (Clock_range t) as Hr.
  destruct (time.Clock t) as [[hour min] sec]. cbn [fst].
  destruct Hr as [Hh _].
  assert (Hc : hour = 0 \/ hour = 1 \/ hour = 2 \/ hour = 3 \/ hour = 4 \/ hour = 5
               \/ hour = 6 \/ hour = 7 \/ hour = 8 \/ hour = 9 \/ hour = 10
               \/ hour = 11 \/ hour = 12 \/ hour = 13 \/ hour = 14 \/ hour = 15
               \/ hour = 16 \/ hour = 17 \/ hour = 18 \/ hour = 19 \/ hour = 20
               \/ hour = 21 \/ hour = 22 \/ hour = 23) by lia.
  clear Hh.
  repeat (destruct Hc as [-> | Hc]; [split; [intros E; first [lia | discriminate E] | intros E; first [reflexivity | lia]]|]).
  subst hour. split; [intros E; discriminate E | lia].
Qed.

(** 13:05:09 UTC on 2023-11-14. *)
Definition afternoon : time.Time := time.mkTime 1699967109 0 0.

(** C8, at one record time: the separator is one space; at 13:05:09 the
    console encoder renders "13:05:09 PM", where the 12-hour clock reads
    "01:05:09 PM". *)
Theorem zapConsoleEncoder_afternoon :
  ConsoleSeparator (Encoder_config zapConsoleEncoder) = " "
  /\ time.Clock afternoon = (13, 5, 9)
  /\ EncodeTime (Encoder_config zapConsoleEncoder) afternoon
     = Some (AppendString "13:05:09 PM")
  /\ kitchen12 afternoon = "01:05:09 PM".
Proof. vm_compute. repeat split. Qed.

(** ** Further properties of the package *)

(** X1: a sink writes a record of a logging call exactly when the sink's
    level is at or below the call's level: a sink at or below it writes the
    checked entry with its own fields and the call's, and every record
    written comes from such a sink. *)
Theorem sink_level_threshold
    (l : zap.Logger) (call : zap.Call) (lvl : Level) (msg : string) (fs : list Field)
    (enc : Encoder) (out : WriteSyncer) (level : Level) (context : list Field) :
  In (ioCore enc out level context) (sinks (zap.core l)) ->
  (level <= lvl ->
     In (mkWritten out enc (checked_entry l call lvl msg) (context ++ fs))
        (zap.log l call lvl msg fs))
  /\ (forall w, In w (zap.log l call lvl msg fs) ->
        exists enc' out' level' context',
          In (ioCore enc' out' level' context') (sinks (zap.core l))
          /\ level' <= lvl
          /\ w = mkWritten out' enc' (checked_entry l call lvl msg) (context' ++ fs)).
Proof.
  intros Hin. split.
  - intros Hle. apply (log_writes l call lvl msg fs enc out level context Hin).
    unfold Level_Enabled. apply Z.leb_le. exact Hle.
  - intros w Hw.
    apply log_written in Hw as (enc' & out' & level' & context' & Hin' & He & ->).
    exists enc', out', level', context'.
    split; [exact Hin' | split; [apply Z.leb_le; exact He | reflexivity]].
Qed.

Definition two_sink_logger : zap.Logger :=
  newZapLogger true
    [console_sink true WarnLevel writable_env;
     file_sink "router.log" DebugLevel writable_env].

Lemma sink_level_threshold_witness :
  (DebugLevel <= InfoLevel ->
     In (mkWritten (Sink "router.log") ZapJsonEncoder
           (checked_entry two_sink_logger error_call InfoLevel "ready")
           (base_fields writable_env ++ []))
        (zap.log two_sink_logger error_call InfoLevel "ready" []))
  /\ (forall w, In w (zap.log two_sink_logger error_call InfoLevel "ready" []) ->
        exists enc' out' level' context',
          In (ioCore enc' out' level' context') (sinks (zap.core two_sink_logger))
          /\ level' <= InfoLevel
          /\ w = mkWritten out' enc'
                   (checked_entry two_sink_logger error_call InfoLevel "ready")
                   (context' ++ [])).
Proof.
  apply (sink_level_threshold two_sink_logger error_call InfoLevel "ready" []
           ZapJsonEncoder (Sink "router.log") DebugLevel (base_fields writable_env)).
  right; left; reflexivity.
Defined.

(** X2: a logger built with [debug = true] records the frame of the calling
    function as the caller of every record; built with [debug = false] it
    records no caller. *)
Theorem caller_iff_debug
    (prettyLogging debug : bool) (levelOutput fileLevel : Level)
    (fileOutput : string) (env : Env) (logger : zap.Logger) (tr : list Event)
    (call : zap.Call) (frame : Frame) (more : list Frame)
    (lvl : Level) (msg : string) (fs : list Field) (w : Written) :
  run (New prettyLogging debug levelOutput fileOutput fileLevel) env = (Returned logger, tr) ->
  zap.frames call = frame :: more ->
  In w (zap.log logger call lvl msg fs) ->
  zap.addCaller logger = debug
  /\ Caller (entry w) = if debug then Some frame else None.
Proof.
  intros Hrun Hframes Hw.
  assert (Hc : zap.addCaller logger = debug).
  { destruct (New_outcomes _ _ _ _ _ _ _ _ Hrun) as [[_ ->] | (_ & _ & ->)]; reflexivity. }
  apply log_written in Hw as (enc & out & level & context & _ & _ & ->).
  split; [exact Hc|]. unfold checked_entry. cbn [entry]. rewrite Hframes, Hc.
  reflexivity.
Qed.

Lemma caller_iff_debug_witness :
  zap.addCaller two_sink_logger = true
  /\ Caller (entry (mkWritten (Sink "router.log") ZapJsonEncoder
                      (checked_entry two_sink_logger error_call InfoLevel "ready")
                      (base_fields writable_env ++ [])))
     = Some handler_frame.
Proof.
  apply (caller_iff_debug true true WarnLevel DebugLevel "router.log" writable_env
           two_sink_logger [] error_call handler_frame [main_frame; runtime_main]
           InfoLevel "ready" []).
  - reflexivity.
  - reflexivity.
  - left; reflexivity.
Defined.

(** X3: [attachBaseFields] always returns; the hostname field holds the name
    [os.Hostname] reports, or "unknown" when it reports an error, and the
    pid field holds the process id. *)
Theorem attachBaseFields_fields (core : Core) (env : Env) :
  exists host,
    run (attachBaseFields core) env
    = (Returned (Core_With core
         [mkField "hostname" StringType 0 host;
          mkField "pid" Int64Type (int64 (os_Getpid env)) ""]), [])
    /\ host = match os_Hostname env with
              | (_, Some _) => "unknown"
              | (name, None) => name
              end.
Proof.
  exists (match snd (os_Hostname env) with
          | Some _ => "unknown"
          | None => fst (os_Hostname env)
          end).
  split; [reflexivity|].
  destruct (os_Hostname env) as [name [e|]]; reflexivity.
Qed.

Lemma WithRequestID_field (reqID : string) :
  WithRequestID reqID = mkField "reqId" StringType 0 reqID.
Proof. reflexivity. Qed.

(** ** Fan-out *)

(** The level of a sink enables [lvl]. *)
Definition sink_enabled (lvl : Level) (c : Core) : bool :=
  match c with
  | ioCore _ _ level _ => Level_Enabled level lvl
  | _ => false
  end.

(** The entry a logging call starts from, before [check] decorates it. *)
Definition plain_entry (call : zap.Call) (lvl : Level) (msg : string) : Entry :=
  mkEntry lvl (zap.now call) msg None EmptyString.

Lemma filter_flat_map {A B} (p : B -> bool) (f : A -> list B) (l : list A) :
  filter p (flat_map f l) = flat_map (fun a => filter p (f a)) l.
Proof.
  induction l as [|a l IH]; [reflexivity|].
  cbn [flat_map]. rewrite filter_app, IH. reflexivity.
Qed.

Lemma flat_map_Forall_ext {A B} (f g : A -> list B) (l : list A) :
  Forall (fun a => f a = g a) l -> flat_map f l = flat_map g l.
Proof.
  induction 1 as [|a l Ha _ IH]; [reflexivity|].
  cbn [flat_map]. rewrite Ha, IH. reflexivity.
Qed.

(** [Check] adds exactly the sinks whose level enables the entry's level, in
    the order of the tee. *)
Lemma Core_Check_filter c ent :
  Core_Check c ent = filter (sink_enabled (Level_ ent)) (sinks c).
Proof.
  induction c as [| enc out level context | cores IH] using Core_induction.
  - reflexivity.
  - cbn. destruct (Level_Enabled level (Level_ ent)); reflexivity.
  - cbn [Core_Check sinks]. rewrite filter_flat_map.
    apply flat_map_Forall_ext. exact IH.
Qed.

Lemma Core_Enabled_filter c lvl :
  zap.Core_Enabled c lvl = false -> filter (sink_enabled lvl) (sinks c) = [].
Proof.
  induction c as [| enc out level context | cores IH] using Core_induction.
  - reflexivity.
  - cbn. intros ->. reflexivity.
  - cbn [zap.Core_Enabled sinks]. intros He. rewrite filter_flat_map.
    induction IH as [|c cores Hc _ IHl]; [reflexivity|].
    cbn [existsb flat_map] in *. apply orb_false_iff in He as [He1 He2].
    rewrite (Hc He1), (IHl He2). reflexivity.
Qed.

(** A logging call hands the checked entry to every enabled sink, once each,
    in the order of the tee. *)
Lemma log_eq l call lvl msg fs :
  zap.log l call lvl msg fs
  = flat_map (fun c => Core_Write c (checked_entry l call lvl msg) fs)
      (filter (sink_enabled lvl) (sinks (zap.core l))).
Proof.
  unfold zap.log.
  destruct (zap.check l call lvl msg) as [[ent cores]|] eqn:Hk.
  - apply check_entry in Hk as [-> ->]. rewrite Core_Check_filter. reflexivity.
  - unfold zap.check in Hk.
    destruct ((lvl <? DPanicLevel) && negb (zap.Core_Enabled (zap.core l) lvl)) eqn:Hd.
    + apply andb_true_iff in Hd as [_ Hd]. apply negb_true_iff in Hd.
      rewrite (Core_Enabled_filter _ _ Hd). reflexivity.
    + rewrite Core_Check_filter in Hk. cbn [Level_] in Hk.
      destruct (filter (sink_enabled lvl) (sinks (zap.core l))) as [|c0 cs]; [reflexivity|].
      destruct (negb (zap.addCaller l) && negb (Level_Enabled (zap.addStack l) lvl));
        [discriminate|].
      destruct (zap.frames call); discriminate.
Qed.

(** The records of a call through a logger of the factory: console, then
    file. *)
Lemma New_log_records
    (prettyLogging debug : bool) (levelOutput fileLevel : Level)
    (fileOutput : string) (env : Env) (logger : zap.Logger) (tr : list Event)
    (call : zap.Call) (lvl : Level) (msg : string) (fs : list Field) :
  run (New prettyLogging debug levelOutput fileOutput fileLevel) env = (Returned logger, tr) ->
  let ent := checked_entry logger call lvl msg in
  zap.log logger call lvl msg fs
  = ((if levelOutput <=? lvl
      then [mkWritten Stdout
              (if prettyLogging then zapConsoleEncoder else ZapJsonEncoder) ent
              ((if prettyLogging then [] else base_fields env) ++ fs)]
      else [])
     ++ (if (fileOutput =? "")%string then []
         else if fileLevel <=? lvl
              then [mkWritten (opened (zap_Open env fileOutput)) ZapJsonEncoder ent
                      (base_fields env ++ fs)]
              else []))%list.
Proof.
  intros Hrun ent. subst ent. rewrite log_eq.
  destruct (New_outcomes _ _ _ _ _ _ _ _ Hrun) as [[-> ->] | (Hne & _ & ->)].
  - cbn [zap.core sinks filter sink_enabled]. unfold Level_Enabled.
    destruct (levelOutput <=? lvl); reflexivity.
  - destruct (String.eqb_spec fileOutput ""); [contradiction|].
    cbn [zap.core sinks flat_map app filter sink_enabled]. unfold Level_Enabled.
    destruct (levelOutput <=? lvl), (fileLevel <=? lvl); reflexivity.
Qed.

(** X5: every logging call through a logger the factory returned writes one
    record per sink whose level is at or below the call's level, the console
    record first and the file record second, all with the same entry; a call
    below both levels writes nothing. *)
Theorem New_log_fan_out
    (prettyLogging debug : bool) (levelOutput fileLevel : Level)
    (fileOutput : string) (env : Env) (logger : zap.Logger) (tr : list Event)
    (call : zap.Call) (lvl : Level) (msg : string) (fs : list Field) :
  run (New prettyLogging debug levelOutput fileOutput fileLevel) env = (Returned logger, tr) ->
  let ent := checked_entry logger call lvl msg in
  zap.log logger call lvl msg fs
  = ((if levelOutput <=? lvl
      then [mkWritten Stdout
              (if prettyLogging then zapConsoleEncoder else ZapJsonEncoder) ent
              ((if prettyLogging then [] else base_fields env) ++ fs)]
      else [])
     ++ (if (fileOutput =? "")%string then []
         else if fileLevel <=? lvl
              then [mkWritten (opened (zap_Open env fileOutput)) ZapJsonEncoder ent
                      (base_fields env ++ fs)]
              else []))%list.
Proof. apply New_log_records. Qed.

Lemma New_log_fan_out_witness :
  zap.log two_sink_logger error_call ErrorLevel "listen failed" []
  = [mkWritten Stdout zapConsoleEncoder
       (checked_entry two_sink_logger error_call ErrorLevel "listen failed") [];
     mkWritten (Sink "router.log") ZapJsonEncoder
       (checked_entry two_sink_logger error_call ErrorLevel "listen failed")
       (base_fields writable_env ++ [])].
Proof.
  apply (New_log_fan_out true true WarnLevel DebugLevel "router.log" writable_env
           two_sink_logger [] error_call ErrorLevel "listen failed" []).
  reflexivity.
Defined.

(** ** Field attachment *)

(** A sink with [fs] added after the fields it already carries. *)
Definition sink_with (fs : list Field) (c : Core) : Core :=
  match c with
  | ioCore enc out level context => ioCore enc out level (context ++ fs)
  | _ => c
  end.

Lemma sinks_With c fs : sinks (Core_With c fs) = map (sink_with fs) (sinks c).
Proof.
  induction c as [| enc out level context | cores IH] using Core_induction.
  - reflexivity.
  - reflexivity.
  - cbn [Core_With sinks]. induction IH as [|c cores Hc _ IHl]; [reflexivity|].
    cbn [map flat_map]. rewrite map_app, Hc, IHl. reflexivity.
Qed.

Lemma filter_sink_with lvl fs l :
  filter (sink_enabled lvl) (map (sink_with fs) l)
  = map (sink_with fs) (filter (sink_enabled lvl) l).
Proof.
  induction l as [|c l IH]; [reflexivity|].
  cbn [map filter]. rewrite IH.
  destruct c as [| enc out level context | cores]; cbn; try reflexivity.
  destruct (Level_Enabled level lvl); reflexivity.
Qed.

(** X6: [attachBaseFields] changes no sink's encoder, destination or level and
    drops no field: on any core, a tee included, each sink keeps the fields
    it had and gets hostname and pid after them, so the same sinks write the
    same calls as before. *)
Theorem attachBaseFields_keeps_sinks (c : Core) (env : Env) :
  exists c',
    run (attachBaseFields c) env = (Returned c', [])
    /\ sinks c' = map (sink_with (base_fields env)) (sinks c)
    /\ (forall ent,
          Core_Check c' ent = map (sink_with (base_fields env)) (Core_Check c ent))
    /\ (forall lvl, zap.Core_Enabled c' lvl = zap.Core_Enabled c lvl).
Proof.
  exists (Core_With c (base_fields env)).
  split; [reflexivity|]. split; [apply sinks_With|]. split.
  - intros ent. rewrite !Core_Check_filter, sinks_With. apply filter_sink_with.
  - intros lvl.
    induction c as [| enc out level context | cores IH] using Core_induction.
    + reflexivity.
    + reflexivity.
    + cbn [Core_With zap.Core_Enabled].
      induction IH as [|c cores Hc _ IHl]; [reflexivity|].
      cbn [map existsb]. rewrite Hc, IHl. reflexivity.
Qed.

(** ** The outcomes of construction *)

(** X7: the factory returns a logger exactly when [fileOutput] is empty or
    its file opens, and then nothing was closed or printed; otherwise it
    ends the process with exit code 1 after printing the open error.  A
    failing [os.Hostname] never keeps it from returning. *)
Theorem New_returns_iff
    (prettyLogging debug : bool) (levelOutput fileLevel : Level)
    (fileOutput : string) (env : Env) :
  ((exists logger,
       run (New prettyLogging debug levelOutput fileOutput fileLevel) env
       = (Returned logger, []))
   <-> (fileOutput = "" \/ err (zap_Open env fileOutput) = None))
  /\ (forall logger tr,
        run (New prettyLogging debug levelOutput fileOutput fileLevel) env
        = (Returned logger, tr) -> tr = [])
  /\ (forall code tr,
        run (New prettyLogging debug levelOutput fileOutput fileLevel) env
        = (Exited code, tr) ->
        code = 1 /\ fileOutput <> ""
        /\ exists e,
             err (zap_Open env fileOutput) = Some e
             /\ In (logged ("could not open log file: " ++ e
                            ++ String (ascii_of_nat 10) EmptyString)) tr).
Proof.
  destruct (String.eqb_spec fileOutput "") as [-> | Hne].
  - rewrite New_console_only. split; [|split].
    + split; [intros _; left; reflexivity | intros _; eexists; reflexivity].
    + intros logger tr H. injection H as _ <-. reflexivity.
    + intros code tr H. discriminate.
  - destruct (err (zap_Open env fileOutput)) as [e|] eqn:He.
    + rewrite (New_open_failed _ _ _ _ _ _ _ Hne He). split; [|split].
      * split; [intros [logger H]; discriminate | intros [H | H]; [contradiction | discriminate]].
      * intros logger tr H. discriminate.
      * intros code tr H. injection H as <- <-.
        split; [reflexivity|]. split; [exact Hne|]. exists e. split; [reflexivity|].
        unfold open_failure_events. apply in_or_app. right. left. reflexivity.
    + rewrite (New_with_file _ _ _ _ _ _ Hne He). split; [|split].
      * split; [intros _; right; reflexivity | intros _; eexists; reflexivity].
      * intros logger tr H. injection H as _ <-. reflexivity.
      * intros code tr H. discriminate.
Qed.



(** X4: in every record written through a logger the factory returned, the
    fields of the call, the field of [WithRequestID] among them, arrive
    unchanged and in order after the sink's own fields (hostname and pid for
    a JSON sink, none for the pretty console); the sink's own fields never
    use the key "reqId", so the fields of the record keyed "reqId" are
    exactly those the call passed. *)
Theorem WithRequestID_in_record
    (prettyLogging debug : bool) (levelOutput fileLevel : Level)
    (fileOutput : string) (env : Env) (logger : zap.Logger) (tr : list Event)
    (call : zap.Call) (lvl : Level) (msg reqID : string)
    (before after : list Field) (w : Written) :
  run (New prettyLogging debug levelOutput fileOutput fileLevel) env = (Returned logger, tr) ->
  In w (zap.log logger call lvl msg (before ++ WithRequestID reqID :: after)) ->
  let own := if isJSON (by_ w) then base_fields env else [] in
  fields w = (own ++ before ++ WithRequestID reqID :: after)%list
  /\ filter (fun f => (Key f =? "reqId")%string) own = []
  /\ filter (fun f => (Key f =? "reqId")%string) (fields w)
     = filter (fun f => (Key f =? "reqId")%string) (before ++ WithRequestID reqID :: after)
  /\ In (mkField "reqId" StringType 0 reqID) (fields w).
Proof.
  intros Hrun Hw own.
  assert (Hf : fields w = (own ++ before ++ WithRequestID reqID :: after)%list).
  { subst own.
    rewrite (New_log_records _ _ _ _ _ _ _ _ call lvl msg _ Hrun) in Hw.
    destruct prettyLogging, (levelOutput <=? lvl), (fileOutput =? "")%string,
      (fileLevel <=? lvl); cbn [app In] in Hw;
      repeat (destruct Hw as [<- | Hw]; [reflexivity|]); contradiction. }
  assert (Hown : filter (fun f => (Key f =? "reqId")%string) own = []).
  { subst own. destruct (isJSON (by_ w)); reflexivity. }
  split; [exact Hf|]. split; [exact Hown|]. split.
  - rewrite Hf, filter_app, Hown. reflexivity.
  - rewrite Hf. apply in_or_app. right. apply in_or_app. right. left. reflexivity.
Qed.

Lemma WithRequestID_in_record_witness :
  let w := mkWritten (Sink "router.log") ZapJsonEncoder
             (checked_entry two_sink_logger error_call InfoLevel "ready")
             (base_fields writable_env
                ++ [zap.String_ "path" "/graphql"; WithRequestID "r-1";
                    zap.String_ "reqId" "shadow"]) in
  let own := if isJSON (by_ w) then base_fields writable_env else [] in
  fields w
  = (own ++ [zap.String_ "path" "/graphql"]
         ++ WithRequestID "r-1" :: [zap.String_ "reqId" "shadow"])%list
  /\ filter (fun f => (Key f =? "reqId")%string) own = []
  /\ filter (fun f => (Key f =? "reqId")%string) (fields w)
     = filter (fun f => (Key f =? "reqId")%string)
         ([zap.String_ "path" "/graphql"]
            ++ WithRequestID "r-1" :: [zap.String_ "reqId" "shadow"])
  /\ In (mkField "reqId" StringType 0 "r-1") (fields w).
Proof.
  apply (WithRequestID_in_record true true WarnLevel DebugLevel "router.log" writable_env
           two_sink_logger [] error_call InfoLevel "ready" "r-1"
           [zap.String_ "path" "/graphql"] [zap.String_ "reqId" "shadow"]).
  - reflexivity.
  - left; reflexivity.
Defined.

(** ** More on the level parser *)

Definition isLetter (c : ascii) : bool := isUpper c || strings.isLower c.

Lemma letter_variant_letter c u :
  letter_variant c u -> isUpper u = true -> isLetter c = true.
Proof.
  intros [-> | [_ Hc]] Hu; unfold isLetter.
  - rewrite Hu. reflexivity.
  - unfold isUpper in Hu. apply andb_true_iff in Hu as [H1 H2].
    apply Nat.leb_le in H1, H2. apply orb_true_iff. right.
    unfold strings.isLower. apply andb_true_iff; split; apply Nat.leb_le; lia.
Qed.

Lemma ascii_case_variant_letters s name :
  upper_name name -> ascii_case_variant s name ->
  String.length s = String.length name
  /\ forall c, In c (list_ascii_of_string s) -> isLetter c = true.
Proof.
  intros Hn Hv. induction Hv as [|c u s name Hl Hv IH].
  - split; [reflexivity | intros c []].
  - assert (Hu : isUpper u = true) by (apply Hn; left; reflexivity).
    destruct IH as [IH1 IH2]; [intros d Hd; apply Hn; right; exact Hd|].
    split; [cbn; rewrite IH1; reflexivity|].
    intros d [<- | Hd]; [exact (letter_variant_letter _ _ Hl Hu) | exact (IH2 d Hd)].
Qed.

Lemma level_names_length name lvl :
  In (name, lvl) level_names -> (4 <= String.length name <= 7)%nat.
Proof.
  unfold level_names. cbn [In]. intros H.
  repeat (destruct H as [H | H]; [injection H as <- <-; cbn; lia|]). contradiction.
Qed.

(** X9: the parser accepts an ASCII input only if it consists of letters and
    spells one of the six names in some mix of cases; so the empty string,
    digits, and names with blanks or other bytes around or inside them are
    answered with the error. *)
Theorem ZapLogLevelFromString_accepts_letters_only
    (up : string -> string) (logLevel : string) :
  strings.isASCII logLevel = true ->
  snd (ZapLogLevelFromString up logLevel) = None ->
  (forall c, In c (list_ascii_of_string logLevel) -> isLetter c = true)
  /\ (4 <= String.length logLevel <= 7)%nat
  /\ exists name lvl,
       In (name, lvl) level_names
       /\ ascii_case_variant logLevel name
       /\ String.length logLevel = String.length name
       /\ ZapLogLevelFromString up logLevel = (lvl, None).
Proof.
  intros Ha Hok.
  destruct (ZapLogLevelFromString_cases up logLevel)
    as [(name & lvl & Hin & Hu & Hr) | [_ Hr]]; [|rewrite Hr in Hok; discriminate].
  assert (Hv : ascii_case_variant logLevel name).
  { rewrite ToUpper_eq, Ha in Hu. rewrite <- Hu. apply upperASCII_case_variant. }
  destruct (ascii_case_variant_letters _ _ (level_names_upper _ _ Hin) Hv) as [Hlen Hlet].
  split; [exact Hlet|]. split; [rewrite Hlen; exact (level_names_length _ _ Hin)|].
  exists name, lvl. repeat split; assumption.
Qed.

Lemma ZapLogLevelFromString_accepts_letters_only_witness :
  (forall c, In c (list_ascii_of_string "wArNiNg") -> isLetter c = true)
  /\ (4 <= String.length "wArNiNg" <= 7)%nat
  /\ exists name lvl,
       In (name, lvl) level_names
       /\ ascii_case_variant "wArNiNg" name
       /\ String.length "wArNiNg" = String.length name
       /\ ZapLogLevelFromString (fun s => s) "wArNiNg" = (lvl, None).
Proof.
  apply (ZapLogLevelFromString_accepts_letters_only (fun s => s) "wArNiNg"); reflexivity.
Defined.

(** X10: two ASCII inputs that differ only in the case of their letters get
    the same level, and either both or neither gets the error. *)
Theorem ZapLogLevelFromString_ascii_case_blind
    (up : string -> string) (s1 s2 : string) :
  strings.isASCII s1 = true ->
  strings.isASCII s2 = true ->
  strings.upperASCII s1 = strings.upperASCII s2 ->
  fst (ZapLogLevelFromString up s1) = fst (ZapLogLevelFromString up s2)
  /\ (snd (ZapLogLevelFromString up s1) = None
      <-> snd (ZapLogLevelFromString up s2) = None).
Proof.
  intros H1 H2 Hu.
  assert (E : strings.ToUpper up s1 = strings.ToUpper up s2)
    by (rewrite !ToUpper_eq, H1, H2; exact Hu).
  unfold ZapLogLevelFromString. rewrite E.
  repeat match goal with
  | |- context [String.eqb ?u ?n] =>
      destruct (String.eqb u n); [split; [reflexivity | split; reflexivity]|]
  end.
  split; [reflexivity | split; discriminate].
Qed.

Lemma ZapLogLevelFromString_ascii_case_blind_witness :
  fst (ZapLogLevelFromString (fun s => s) "Fatal")
  = fst (ZapLogLevelFromString (fun s => s) "fATAL")
  /\ (snd (ZapLogLevelFromString (fun s => s) "Fatal") = None
      <-> snd (ZapLogLevelFromString (fun s => s) "fATAL") = None).
Proof.
  apply (ZapLogLevelFromString_ascii_case_blind (fun s => s) "Fatal" "fATAL"); reflexivity.
Defined.

(** X11: the level the parser returns is never [DPanicLevel] and always
    between -1 and 5; with an error it is -1; and two inputs parsed without
    error to the same level have the same upper-case form, so no two names
    share a level. *)
Theorem ZapLogLevelFromString_range (up : string -> string) (s s' : string) :
  -1 <= fst (ZapLogLevelFromString up s) <= 5
  /\ fst (ZapLogLevelFromString up s) <> DPanicLevel
  /\ (snd (ZapLogLevelFromString up s) <> None -> fst (ZapLogLevelFromString up s) = -1)
  /\ (snd (ZapLogLevelFromString up s) = None ->
      snd (ZapLogLevelFromString up s') = None ->
      fst (ZapLogLevelFromString up s) = fst (ZapLogLevelFromString up s') ->
      strings.ToUpper up s = strings.ToUpper up s').
Proof.
  assert (Hlv : forall name lvl,
             In (name, lvl) level_names -> -1 <= lvl <= 5 /\ lvl <> DPanicLevel).
  { unfold level_names. cbn [In]. intros name lvl H.
    repeat (destruct H as [H | H]; [injection H as <- <-; split; [cbv; split; discriminate | discriminate]|]).
    contradiction. }
  assert (Hinj : forall n1 n2 lvl,
             In (n1, lvl) level_names -> In (n2, lvl) level_names -> n1 = n2).
  { unfold level_names. cbn [In]. intros n1 n2 lvl H1 H2.
    repeat (destruct H1 as [H1 | H1]; [injection H1 as <- <-|]); try contradiction;
      repeat (destruct H2 as [H2 | H2];
              [injection H2; intros; subst;
               first [reflexivity
                     | match goal with E : _ = _ |- _ => cbv in E; discriminate E end]|]);
      contradiction. }
  destruct (ZapLogLevelFromString_cases up s)
    as [(name & lvl & Hin & Hu & Hr) | [_ Hr]]; rewrite Hr; cbn [fst snd].
  - destruct (Hlv _ _ Hin) as [Hb Hd].
    split; [exact Hb|]. split; [exact Hd|]. split.
    + intros H. exfalso. apply H. reflexivity.
    + intros _ Hok' Heq.
      destruct (ZapLogLevelFromString_cases up s')
        as [(name' & lvl' & Hin' & Hu' & Hr') | [_ Hr']];
        rewrite Hr' in Hok', Heq; [|discriminate].
      cbn [fst] in Heq. subst lvl'. rewrite Hu, Hu'. exact (Hinj _ _ _ Hin Hin').
  - split; [lia|]. split; [discriminate|]. split; [reflexivity | discriminate].
Qed.

Lemma ZapLogLevelFromString_range_witness :
  strings.ToUpper (fun s => s) "Error" = strings.ToUpper (fun s => s) "eRROR".
Proof.
  apply (proj2 (proj2 (proj2
           (ZapLogLevelFromString_range (fun s => s) "Error" "eRROR")))); reflexivity.
Defined.

(** ** The parser and the factory together *)



(** ** The shape of the console timestamp *)

(** Two decimal digits. *)
Definition two_digits (x : Z) : string :=
  String (time.digit (x / 10)) (String (time.digit (x mod 10)) EmptyString).

(** X13: the console encoder renders every record time as eleven bytes: the
    hour of the 24-hour clock, the minute and the second, two digits each
    with colons between, a blank, and AM before noon or PM from noon on; no
    date.  The rendering is that of the 12-hour layout "03:04:05 PM" exactly
    when the hour is between 1 and 12. *)
Theorem zapConsoleEncoder_timestamp (t : time.Time) :
  exists hour min sec,
    time.Clock t = (hour, min, sec)
    /\ 0 <= hour < 24 /\ 0 <= min < 60 /\ 0 <= sec < 60
    /\ EncodeTime (Encoder_config zapConsoleEncoder) t
       = Some (AppendString
                 (two_digits hour ++ ":" ++ two_digits min ++ ":" ++ two_digits sec
                    ++ " " ++ (if (hour <? 12)%Z then "AM" else "PM"))%string)
    /\ (forall str,
          EncodeTime (Encoder_config zapConsoleEncoder) t = Some (AppendString str) ->
          String.length str = 11%nat)
    /\ (EncodeTime (Encoder_config zapConsoleEncoder) t
        = option_map AppendString (time.Format t "03:04:05 PM")
        <-> 1 <= hour <= 12).
Proof.
  pose proof (Clock_range t) as Hr.
  pose proof (zapConsoleEncoder_time_12h t) as H12.
  destruct (zapConsoleEncoder_time t) as [_ Ht].
  destruct (time.Clock t) as [[hour min] sec] eqn:Hc.
  exists hour, min, sec. split; [reflexivity|].
  destruct Hr as (Hh & Hm & Hs). repeat (split; [assumption|]).
  assert (Hshape : EncodeTime (Encoder_config zapConsoleEncoder) t
                   = Some (AppendString
                             (two_digits hour ++ ":" ++ two_digits min ++ ":"
                                ++ two_digits sec ++ " "
                                ++ (if (hour <? 12)%Z then "AM" else "PM"))%string)).
  { rewrite Ht. unfold time.appendInt, two_digits.
    rewrite !andb_false_r.
    replace (12 <=? hour) with (negb (hour <? 12)) by (rewrite Z.ltb_antisym, negb_involutive; reflexivity).
    destruct (hour <? 12); reflexivity. }
  split; [exact Hshape|]. split.
  - intros str Hstr. rewrite Hshape in Hstr. injection Hstr as <-.
    unfold two_digits. destruct (hour <? 12); reflexivity.
  - rewrite Format_kitchen12. cbn [option_map]. cbn [fst] in H12. exact H12.
Qed.

(* ================================================================= *)
(** * Part III: the test observer *)
(* ================================================================= *)

(** ** [zaptest/observer] *)

Module observer.

(** [type LoggedEntry struct { zapcore.Entry; Context []zapcore.Field }] *)
Record LoggedEntry := mkLoggedEntry { Entry_ : Entry; Context : list Field }.

(** [ObservedLogs]: the entries added so far, oldest first.  The core and
    the caller of [NewObserver] share it; it is threaded through the calls. *)
Definition ObservedLogs := list LoggedEntry.

(** [type contextObserver struct { zapcore.LevelEnabler; logs *ObservedLogs;
    context []zapcore.Field }] *)
Record contextObserver := mkContextObserver
  { enab : Level; context : list Field }.

(** [func New(enab zapcore.LevelEnabler) (zapcore.Core, *ObservedLogs)] *)
Definition New (enab : Level) : contextObserver * ObservedLogs :=
  (mkContextObserver enab [], []).

Definition Enabled (co : contextObserver) (lvl : Level) : bool :=
  Level_Enabled (enab co) lvl.

(** [func (co *contextObserver) With(fields []zapcore.Field) zapcore.Core] *)
Definition With (co : contextObserver) (fs : list Field) : contextObserver :=
  mkContextObserver (enab co) (context co ++ fs).

(** [func (co *contextObserver) Write(ent zapcore.Entry, fields []zapcore.Field)]:
    [co.logs.add(LoggedEntry{ent, all})], [all] the context then the fields. *)
Definition Write (co : contextObserver) (ent : Entry) (fs : list Field)
    (logs : ObservedLogs) : ObservedLogs :=
  (logs ++ [mkLoggedEntry ent (context co ++ fs)])%list.

(** [func (o *ObservedLogs) Len() int] and [All() []LoggedEntry] *)
Definition Len (logs : ObservedLogs) : nat := List.length logs.
Definition All (logs : ObservedLogs) : list LoggedEntry := logs.

(** A [zap.Logger] over an observer core. *)
Record Logger := mkLogger
  { core : contextObserver; addCaller : bool; addStack : Level }.

Definition apply (o : zap.Option) (log : Logger) : Logger :=
  match o with
  | zap.AddCaller => mkLogger (core log) true (addStack log)
  | zap.AddStacktrace lvl => mkLogger (core log) (addCaller log) lvl
  end.

(** [zap.New(core, options...)] for an observer core. *)
Definition zap_New (c : contextObserver) (options : list zap.Option) : Logger :=
  fold_left (fun l o => apply o l) options (mkLogger c false (FatalLevel + 1)).

(** [Logger.check] over an observer core: the observer's [Check] adds the
    core when its level enables the entry's. *)
Definition check (log : Logger) (call : zap.Call) (lvl : Level) (msg : string)
  : option Entry :=
  if (lvl <? DPanicLevel) && negb (Enabled (core log) lvl) then None
  else
    let ent := mkEntry lvl (zap.now call) msg None EmptyString in
    if negb (Enabled (core log) (Level_ ent)) then None
    else
      let stack := Level_Enabled (addStack log) lvl in
      if negb (addCaller log) && negb stack then Some ent
      else
        match zap.frames call with
        | [] => Some ent
        | frame :: more =>
            let caller := if addCaller log then Some frame else None in
            let trace :=
              if stack then zap.FormatFrames (frame :: zap.FormatStack more)
              else EmptyString in
            Some (mkEntry lvl (zap.now call) msg caller trace)
        end.

(** A logging call: the store after it. *)
Definition log (l : Logger) (call : zap.Call) (lvl : Level) (msg : string)
    (fs : list Field) (logs : ObservedLogs) : ObservedLogs :=
  match check l call lvl msg with
  | None => logs
  | Some ent => Write (core l) ent fs logs
  end.

End observer.

(** ** [NewObserver] *)

Definition NewObserver : observer.Logger * observer.ObservedLogs :=
  let '(core, observedLogs) := observer.New DebugLevel in
  (observer.zap_New core [], observedLogs).

(** ** Properties *)

(** One logging call of a test: the runtime's part, the level, the message
    and the fields. *)
Record Emission := mkEmission
  { em_call : zap.Call; em_lvl : Level; em_msg : string; em_fields : list Field }.

(** The store after a sequence of logging calls. *)
Definition emit_all (l : observer.Logger) (es : list Emission)
    (logs : observer.ObservedLogs) : observer.ObservedLogs :=
  fold_left (fun logs e => observer.log l (em_call e) (em_lvl e) (em_msg e) (em_fields e) logs)
    es logs.

(** What the store holds for a call: the undecorated entry and the call's
    fields. *)
Definition observed (e : Emission) : observer.LoggedEntry :=
  observer.mkLoggedEntry (plain_entry (em_call e) (em_lvl e) (em_msg e)) (em_fields e).

(** [observer.check] decorates an entry as [zap.check] does over a sink of
    the same level. *)
Lemma observer_check_agrees l enc out context call lvl msg :
  observer.check l call lvl msg
  = option_map fst
      (zap.check (zap.mkLogger (ioCore enc out (observer.enab (observer.core l)) context)
                    (observer.addCaller l) (observer.addStack l)) call lvl msg).
Proof.
  unfold observer.check, zap.check, observer.Enabled.
  cbn [zap.core zap.addCaller zap.addStack zap.Core_Enabled Core_Check Level_].
  destruct ((lvl <? DPanicLevel)
            && negb (Level_Enabled (observer.enab (observer.core l)) lvl)); [reflexivity|].
  destruct (Level_Enabled (observer.enab (observer.core l)) lvl); [|reflexivity].
  cbn [negb].
  destruct (negb (observer.addCaller l)
            && negb (Level_Enabled (observer.addStack l) lvl)); [reflexivity|].
  destruct (zap.frames call); reflexivity.
Qed.

Lemma NewObserver_log call lvl msg fs logs :
  lvl <= FatalLevel ->
  observer.log (fst NewObserver) call lvl msg fs logs
  = if DebugLevel <=? lvl
    then (logs ++ [observer.mkLoggedEntry (plain_entry call lvl msg) fs])%list
    else logs.
Proof.
  intros Hle. unfold observer.log, observer.check, observer.Enabled, Level_Enabled.
  cbn [NewObserver fst observer.New observer.zap_New fold_left observer.core
       observer.enab observer.addCaller observer.addStack Level_].
  destruct (DebugLevel <=? lvl) eqn:Hd.
  - cbn [negb andb]. rewrite andb_false_r.
    replace (FatalLevel + 1 <=? lvl) with false
      by (symmetry; apply Z.leb_gt; unfold FatalLevel in *; lia).
    reflexivity.
  - cbn [negb]. rewrite andb_true_r.
    replace (lvl <? DPanicLevel) with true; [reflexivity|].
    symmetry. apply Z.ltb_lt. apply Z.leb_gt in Hd. unfold DebugLevel, DPanicLevel in *. lia.
Qed.

(** X14: the store of [NewObserver] starts empty, and after any sequence of
    logging calls below [PanicLevel] (the calls that return: a call at
    [PanicLevel] or [FatalLevel] writes and then panics or exits) it holds,
    oldest first, one entry for each call at [DebugLevel] or above: the
    call's level, time, message and fields, with no caller and no stack
    trace.  Calls below [DebugLevel] leave no entry, and no call changes an
    earlier entry. *)
Theorem NewObserver_captures (es : list Emission) (logs : observer.ObservedLogs) :
  Forall (fun e => em_lvl e < PanicLevel) es ->
  snd NewObserver = []
  /\ emit_all (fst NewObserver) es logs
     = (logs ++ map observed (filter (fun e => DebugLevel <=? em_lvl e) es))%list
  /\ observer.Len (emit_all (fst NewObserver) es [])
     = List.length (filter (fun e => DebugLevel <=? em_lvl e) es).
Proof.
  intros Hall.
  assert (Hgen : forall logs0,
             emit_all (fst NewObserver) es logs0
             = (logs0 ++ map observed (filter (fun e => DebugLevel <=? em_lvl e) es))%list).
  { induction Hall as [|e es He _ IH]; intros logs0.
    - cbn. rewrite app_nil_r. reflexivity.
    - unfold emit_all in *. cbn [fold_left filter].
      rewrite IH, NewObserver_log by (unfold PanicLevel, FatalLevel in *; lia).
      destruct (DebugLevel <=? em_lvl e); [|reflexivity].
      cbn [map]. rewrite <- app_assoc. reflexivity. }
  split; [reflexivity|]. split; [apply Hgen|].
  rewrite Hgen. unfold observer.Len. cbn [app]. apply length_map.
Qed.

Definition two_emissions : list Emission :=
  [ mkEmission error_call InfoLevel "ready" [WithRequestID "r-1"];
    mkEmission error_call (-2) "trace" [];
    mkEmission error_call ErrorLevel "listen failed" [] ].

Lemma NewObserver_captures_witness :
  snd NewObserver = []
  /\ emit_all (fst NewObserver) two_emissions []
     = ([] ++ map observed
                (filter (fun e => DebugLevel <=? em_lvl e) two_emissions))%list
  /\ observer.Len (emit_all (fst NewObserver) two_emissions [])
     = List.length (filter (fun e => DebugLevel <=? em_lvl e) two_emissions).
Proof.
  apply (NewObserver_captures two_emissions []).
  repeat constructor; discriminate.
Defined.

(** ** What [debug] changes *)

(** A record with the caller removed. *)
Definition without_caller (w : Written) : Written :=
  mkWritten (to w) (by_ w)
    (mkEntry (Level_ (entry w)) (Time_ (entry w)) (Message (entry w)) None
       (Stack (entry w)))
    (fields w).

(** X15: [debug] changes nothing but the caller: the loggers the factory
    returns for [debug = true] and [debug = false] have the same core and the
    same stack-trace level, and for every call the records of the first,
    with the caller removed, are the records of the second. *)
Theorem debug_only_adds_caller
    (prettyLogging : bool) (levelOutput fileLevel : Level)
    (fileOutput : string) (env : Env) (l1 l0 : zap.Logger) (tr1 tr0 : list Event) :
  run (New prettyLogging true levelOutput fileOutput fileLevel) env = (Returned l1, tr1) ->
  run (New prettyLogging false levelOutput fileOutput fileLevel) env = (Returned l0, tr0) ->
  zap.core l1 = zap.core l0
  /\ zap.addStack l1 = zap.addStack l0
  /\ forall call lvl msg fs,
       map without_caller (zap.log l1 call lvl msg fs) = zap.log l0 call lvl msg fs.
Proof.
  intros H1 H0.
  assert (Hent : forall call lvl msg,
             checked_entry l0 call lvl msg
             = mkEntry lvl (zap.now call) msg None
                 (Stack (checked_entry l1 call lvl msg))).
  { intros call lvl msg. unfold checked_entry.
    destruct (New_outcomes _ _ _ _ _ _ _ _ H1) as [[_ ->] | (_ & _ & ->)];
      destruct (New_outcomes _ _ _ _ _ _ _ _ H0) as [[_ ->] | (_ & _ & ->)];
      cbn [zap.addStack zap.addCaller]; destruct (zap.frames call); reflexivity. }
  assert (Hfields : forall call lvl msg,
             Level_ (checked_entry l1 call lvl msg) = lvl
             /\ Time_ (checked_entry l1 call lvl msg) = zap.now call
             /\ Message (checked_entry l1 call lvl msg) = msg).
  { intros call lvl msg. unfold checked_entry.
    destruct (zap.frames call); repeat split. }
  split; [|split].
  - destruct (New_outcomes _ _ _ _ _ _ _ _ H1) as [[E1 ->] | (N1 & _ & ->)];
      destruct (New_outcomes _ _ _ _ _ _ _ _ H0) as [[E0 ->] | (N0 & _ & ->)];
      first [reflexivity | contradiction].
  - destruct (New_outcomes _ _ _ _ _ _ _ _ H1) as [[_ ->] | (_ & _ & ->)];
      destruct (New_outcomes _ _ _ _ _ _ _ _ H0) as [[_ ->] | (_ & _ & ->)];
      reflexivity.
  - intros call lvl msg fs.
    rewrite (New_log_records _ _ _ _ _ _ _ _ call lvl msg fs H1),
      (New_log_records _ _ _ _ _ _ _ _ call lvl msg fs H0).
    cbv zeta. rewrite (Hent call lvl msg).
    destruct (Hfields call lvl msg) as (Hl & Ht & Hm).
    destruct (levelOutput <=? lvl), (fileOutput =? "")%string, (fileLevel <=? lvl);
      cbn [map app]; unfold without_caller; cbn [to by_ entry fields];
      rewrite ?Hl, ?Ht, ?Hm; reflexivity.
Qed.

Lemma debug_only_adds_caller_witness :
  zap.core two_sink_logger
  = zap.core (newZapLogger false
                [console_sink true WarnLevel writable_env;
                 file_sink "router.log" DebugLevel writable_env])
  /\ zap.addStack two_sink_logger
     = zap.addStack (newZapLogger false
                       [console_sink true WarnLevel writable_env;
                        file_sink "router.log" DebugLevel writable_env])
  /\ forall call lvl msg fs,
       map without_caller (zap.log two_sink_logger call lvl msg fs)
       = zap.log (newZapLogger false
                    [console_sink true WarnLevel writable_env;
                     file_sink "router.log" DebugLevel writable_env]) call lvl msg fs.
Proof.
  apply (debug_only_adds_caller true WarnLevel DebugLevel "router.log" writable_env
           two_sink_logger
           (newZapLogger false
              [console_sink true WarnLevel writable_env;
               file_sink "router.log" DebugLevel writable_env]) [] []); reflexivity.
Defined.

(** ** Instances *)

Lemma New_returns_iff_witness :
  (exists logger,
      run (New false true InfoLevel "router.log" DebugLevel) writable_env
      = (Returned logger, []))
  /\ 1 = 1
  /\ "/var/log/router.log" <> ""
  /\ exists e,
       err (zap_Open unwritable_env "/var/log/router.log") = Some e
       /\ In (logged ("could not open log file: " ++ e
                      ++ String (ascii_of_nat 10) EmptyString))
            (open_failure_events (zap_Open unwritable_env "/var/log/router.log")
               "open /var/log/router.log: permission denied").
Proof.
  split.
  - apply (proj2 (proj1 (New_returns_iff false true InfoLevel DebugLevel
                           "router.log" writable_env))).
    right; reflexivity.
  - apply (proj2 (proj2 (New_returns_iff false true InfoLevel DebugLevel
                           "/var/log/router.log" unwritable_env)) 1).
    reflexivity.
Defined.

Lemma zapConsoleEncoder_timestamp_witness :
  exists hour min sec,
    time.Clock afternoon = (hour, min, sec)
    /\ 0 <= hour < 24 /\ 0 <= min < 60 /\ 0 <= sec < 60
    /\ EncodeTime (Encoder_config zapConsoleEncoder) afternoon
       = Some (AppendString
                 (two_digits hour ++ ":" ++ two_digits min ++ ":" ++ two_digits sec
                    ++ " " ++ (if (hour <? 12)%Z then "AM" else "PM"))%string)
    /\ (forall str,
          EncodeTime (Encoder_config zapConsoleEncoder) afternoon
          = Some (AppendString str) ->
          String.length str = 11%nat)
    /\ (EncodeTime (Encoder_config zapConsoleEncoder) afternoon
        = option_map AppendString (time.Format afternoon "03:04:05 PM")
        <-> 1 <= hour <= 12).
Proof. exact (zapConsoleEncoder_timestamp afternoon). Defined.
